(** * GroqAPI C++ runtime example: IOP parsing, tensor transcoding, SimpleRunner

    A shallow embedding of [IOP.cpp], [IOP.hpp], [Misc.hpp] and
    [SimpleRunner.cpp]/[SimpleRunner.hpp], and the properties of the design
    document that concern them.

    The C library behind [groqio.h] is not part of the repository: it is the
    interface [GroqIO] below, and every result holds for every implementation
    of it.  C++ exceptions and [assert] are an outcome type; mutable objects
    are threaded through a state monad; every call that the source wraps in
    [GROQOK] is recorded, with the status it returned, in the run's list of
    calls. *)

From Stdlib Require Import ZArith NArith Lia.
From stdpp Require Import base tactics option list strings pretty gmap.

Set Default Proof Using "Type".
Local Open Scope N_scope.

(** ** Machine types *)

(** [size_t], [uint32_t] and [unsigned int] values are naturals; the source
    does no arithmetic on them besides [++nth] below a bound of the same
    type, so no wrap-around occurs. *)
Abbreviation size_t := N (only parsing).
Abbreviation uint32_t := N (only parsing).
Abbreviation int32_t := Z (only parsing).

(** [uint8_t *] and the opaque handle types of [groqio.h] ([::IOP],
    [::Program], [::EntryPoint], [::IODescriptor], [::TensorLayout],
    [::Driver], [::Device], [::IOBufferArray], [::Completion]) are
    addresses. *)
Abbreviation ptr := N (only parsing).
Abbreviation handle := N (only parsing).
Definition nullptr : ptr := 0.

(** [Status] is printed with [std::to_string], so it is an integer. *)
Abbreviation Status := Z (only parsing).

(** [std::to_string] on an integer is its decimal numeral. *)
Definition to_string {A} `{Pretty A} (x : A) : string := pretty x.

(** The calls the source makes through [GROQOK], with their arguments. *)
Inductive Call : Type :=
| c_iop_init (size : size_t)
| c_iop_get_number_of_programs (iop : handle)
| c_get_nth_program (iop : handle) (nth : size_t)
| c_program_name (iop : handle) (nth : size_t)
| c_get_number_of_entrypoints (program : handle)
| c_get_nth_entrypoint (program : handle) (nth : size_t)
| c_entrypoint_get_name (entrypoint : handle)
| c_entrypoint_get_input_iodescriptor (entrypoint : handle)
| c_entrypoint_get_output_iodescriptor (entrypoint : handle)
| c_entrypoint_get_input_size (entrypoint : handle)
| c_entrypoint_get_output_size (entrypoint : handle)
| c_iodescriptor_get_number_of_tensor_layouts (iod : handle)
| c_iodescriptor_get_nth_tensor_layout (iod : handle) (nth : size_t)
| c_tensor_layout_get_name (layout : handle)
| c_tensor_layout_get_number_of_dimensions (layout : handle)
| c_tensor_layout_get_size (layout : handle)
| c_tensor_layout_get_format (layout : handle)
| c_tensor_layout_get_nth_dimension (layout : handle) (nth : size_t)
| c_tensor_layout_to_host (layout : handle) (input : ptr) (inputSize : size_t)
                          (output : ptr) (outputSize : size_t)
| c_tensor_layout_from_host (layout : handle) (input : ptr) (inputSize : size_t)
                            (output : ptr) (outputSize : size_t)
| c_allocate_inputs_iobuffer_array (driver iop : handle) (n : size_t)
| c_allocate_outputs_iobuffer_array (driver iop : handle) (n : size_t)
| c_get_data_handle (ioba : handle) (nth : size_t)
| c_invoke (device inputs : handle) (nthInput : size_t)
           (outputs : handle) (nthOutput : size_t)
| c_wait_for_completion (completion : handle) (timeout : N).

(** A call and the status it returned. *)
Definition Event : Type := Call * Status.

(** ** Exceptions, assertions and the monad of the embedding *)

Inductive exn : Type :=
| runtime_error (what : string)   (* std::runtime_error *)
| out_of_range.                   (* thrown by std::vector::at *)

Inductive Outcome (A : Type) : Type :=
| Ok (a : A)          (* normal return *)
| Throw (e : exn)     (* an exception leaves the function *)
| Abort.              (* a failed assert: the process is aborted *)
Arguments Ok {A} a.
Arguments Throw {A} e.
Arguments Abort {A}.

#[global] Instance Outcome_ret : MRet Outcome := @Ok.
#[global] Instance Outcome_bind : MBind Outcome := λ A B k o,
  match o with
  | Ok a => k a
  | Throw e => Throw e
  | Abort => Abort
  end.

(** One run of a function on a state [S]: how it ended, the state it left
    (also when it threw), and the calls it made, in order. *)
Record Run (S A : Type) : Type := {
  outcome : Outcome A;
  final : S;
  calls : list Event;
}.
Arguments outcome {S A} r.
Arguments final {S A} r.
Arguments calls {S A} r.

Definition M (S A : Type) : Type := S → Run S A.

Definition ret {S A} (a : A) : M S A :=
  λ s, {| outcome := Ok a; final := s; calls := [] |}.
Definition lift {S A} (o : Outcome A) : M S A :=
  λ s, {| outcome := o; final := s; calls := [] |}.
Definition throw {S A} (e : exn) : M S A := lift (Throw e).
Definition abort {S A} : M S A := lift Abort.
Definition get {S} : M S S :=
  λ s, {| outcome := Ok s; final := s; calls := [] |}.
Definition put {S} (s : S) : M S unit :=
  λ _, {| outcome := Ok tt; final := s; calls := [] |}.
Definition bind {S A B} (k : A → M S B) (m : M S A) : M S B :=
  λ s, let r := m s in
       match outcome r with
       | Ok a => let r' := k a (final r) in
                 {| outcome := outcome r'; final := final r';
                    calls := calls r ++ calls r' |}
       | Throw e => {| outcome := Throw e; final := final r; calls := calls r |}
       | Abort => {| outcome := Abort; final := final r; calls := calls r |}
       end.

(** [x ← m; k] and [m;; k] are sequencing; an exception or an abort in [m]
    skips [k] and keeps the state reached. *)
#[global] Instance M_ret {S} : MRet (M S) := @ret S.
#[global] Instance M_bind {S} : MBind (M S) := @bind S.

(** [for (size_t nth = 0; nth < n; ++nth)]: the values [nth] takes. *)
Definition indices (n : size_t) : list size_t := N.of_nat <$> seq 0 (N.to_nat n).

(** A loop whose body ends in [v.push_back(..)]/[v.emplace_back(..)] on an
    initially empty vector [v]: the vector after the loop. *)
Fixpoint collect {S A B} (body : A → M S B) (l : list A) : M S (list B) :=
  match l with
  | [] => mret []
  | x :: l' => y ← body x; ys ← collect body l'; mret (y :: ys)
  end.

(** A loop run for its effects. *)
Fixpoint foreach {S A} (body : A → M S unit) (l : list A) : M S unit :=
  match l with
  | [] => mret tt
  | x :: l' => body x;; foreach body l'
  end.

(** [v.at(i)] on a [std::vector]. *)
Definition at_ {A} (v : list A) (i : size_t) : Outcome A :=
  match v !! N.to_nat i with
  | Some x => Ok x
  | None => Throw out_of_range
  end.

(** [v.at(i) = x]: the vector after the assignment. *)
Definition at_put {A} (v : list A) (i : size_t) (x : A) : Outcome (list A) :=
  match v !! N.to_nat i with
  | Some _ => Ok (<[N.to_nat i := x]> v)
  | None => Throw out_of_range
  end.

(** [v.size()] *)
Definition vsize {A} (v : list A) : size_t := N.of_nat (length v).

(** ** The build *)

(** [assert] is compiled out when [NDEBUG] is defined. *)
Class Build := { NDEBUG : bool }.

Definition assert {build : Build} {S} (c : bool) : M S unit :=
  if NDEBUG then mret tt else if c then mret tt else abort.

(** ** groqio.h *)

(** The parse-time queries read an immutable parsed container and are
    functions of their arguments; they return the status and the value left
    in the out-parameter.  The calls on layouts, buffers and devices read and
    write memory and the device: they transform a [World].  [load w p n] is
    the [n] bytes at [p] in [w]. *)
Class GroqIO := {
  World : Type;
  load : World → ptr → size_t → list Byte.byte;
  GROQ_SUCCESS : Status;
  groq_iop_init : list Byte.byte → Status * handle;
  groq_iop_get_number_of_programs : handle → Status * N;
  groq_get_nth_program : handle → size_t → Status * handle;
  groq_program_name : handle → size_t → Status * string;
  groq_program_get_input_size : handle → size_t → size_t;
  groq_program_get_output_size : handle → size_t → size_t;
  groq_get_number_of_entrypoints : handle → Status * size_t;
  groq_get_nth_entrypoint : handle → size_t → Status * handle;
  groq_entrypoint_get_name : handle → Status * string;
  groq_entrypoint_get_input_iodescriptor : handle → Status * handle;
  groq_entrypoint_get_output_iodescriptor : handle → Status * handle;
  groq_entrypoint_get_input_size : handle → Status * size_t;
  groq_entrypoint_get_output_size : handle → Status * size_t;
  groq_iodescriptor_get_number_of_tensor_layouts : handle → Status * size_t;
  groq_iodescriptor_get_nth_tensor_layout : handle → size_t → Status * handle;
  groq_tensor_layout_get_name : handle → Status * string;
  groq_tensor_layout_get_number_of_dimensions : handle → Status * size_t;
  groq_tensor_layout_get_size : handle → Status * size_t;
  groq_tensor_layout_get_format : handle → Status * int32_t;
  groq_tensor_layout_get_nth_dimension : handle → size_t → Status * uint32_t;
  groq_tensor_layout_to_host :
    handle → ptr → size_t → ptr → size_t → World → Status * World;
  groq_tensor_layout_from_host :
    handle → ptr → size_t → ptr → size_t → World → Status * World;
  groq_allocate_inputs_iobuffer_array :
    handle → handle → size_t → World → Status * handle * World;
  groq_allocate_outputs_iobuffer_array :
    handle → handle → size_t → World → Status * handle * World;
  groq_get_data_handle : handle → size_t → World → Status * ptr * World;
  groq_invoke :
    handle → handle → size_t → handle → size_t → World → Status * handle * World;
  groq_wait_for_completion : handle → N → World → Status * World;
}.

Section GROQOK.
Context {io : GroqIO}.

Definition succeeded (ev : Event) : Prop := ev.2 = GROQ_SUCCESS.

(** The exception of the [GROQOK] macro. *)
Definition groq_error (status : Status) (x : string) : exn :=
  runtime_error ("Error " +:+ to_string status +:+ ": " +:+ x).

(** [GROQOK(x)]: [x] is the text of the call, [c] the call, [f] its effect
    on the world; the result is the value left in the out-parameter. *)
Definition GROQOK {A} (x : string) (c : Call)
    (f : World → Status * A * World) : M World A :=
  λ w, let '(status, a, w') := f w in
       {| outcome := if decide (status = GROQ_SUCCESS) then Ok a
                     else Throw (groq_error status x);
          final := w';
          calls := [(c, status)] |}.

(** A parse-time query. *)
Definition query {A} (r : Status * A) : World → Status * A * World :=
  λ w, (r.1, r.2, w).

(** A call without out-parameter. *)
Definition effect (f : World → Status * World) : World → Status * unit * World :=
  λ w, ((f w).1, tt, (f w).2).
End GROQOK.

(** ** IOP.hpp, IOP.cpp *)

Module TensorLayout.
Section TensorLayout.
Context {io : GroqIO}.

Record t : Type := {
  layout : handle;
  name : string;
  iodSize : size_t;   (* tsp size, not for just this layout -- but for
                         this one and its "neighbors" *)
  size : size_t;      (* host size *)
  format : int32_t;
  dimensions : list uint32_t;
}.

Definition getName (self : t) : string := name self.
Definition getHostSize (self : t) : size_t := size self.
Definition getIoSize (self : t) : size_t := iodSize self.
Definition getDimensions (self : t) : list uint32_t := dimensions self.

(** [TensorLayout::TensorLayout(layout, name, iodSize)] *)
Definition new (layout : handle) (name : string) (iodSize : size_t) : M World t :=
  nDims ← GROQOK "groq_tensor_layout_get_number_of_dimensions(layout, &nDims)"
            (c_tensor_layout_get_number_of_dimensions layout)
            (query (groq_tensor_layout_get_number_of_dimensions layout));
  size ← GROQOK "groq_tensor_layout_get_size(layout, &size)"
            (c_tensor_layout_get_size layout)
            (query (groq_tensor_layout_get_size layout));
  format ← GROQOK "groq_tensor_layout_get_format(layout, &format)"
            (c_tensor_layout_get_format layout)
            (query (groq_tensor_layout_get_format layout));
  dimensions ← collect (λ nth,
      GROQOK "groq_tensor_layout_get_nth_dimension(layout, nth, &dimension)"
        (c_tensor_layout_get_nth_dimension layout nth)
        (query (groq_tensor_layout_get_nth_dimension layout nth)))
    (indices nDims);
  mret {| layout := layout; name := name; iodSize := iodSize; size := size;
         format := format; dimensions := dimensions |}.

(** The exceptions of the two transcoding calls. *)
Definition size_mismatch : exn := runtime_error "Size mismatch".
Definition input_size_mismatch (expected actual : size_t) : exn :=
  runtime_error ("Input size mismatch; expected " +:+ to_string expected
                 +:+ " got " +:+ to_string actual).
Definition output_size_mismatch (expected actual : size_t) : exn :=
  runtime_error ("Output size mismatch; expected " +:+ to_string expected
                 +:+ " got " +:+ to_string actual).

Definition toHost (self : t) (input : ptr) (inputSize : size_t)
    (output : ptr) (outputSize : size_t) : M World unit :=
  if negb (inputSize =? getIoSize self) then
    throw size_mismatch
  else if negb (outputSize =? getHostSize self) then
    throw size_mismatch
  else
    GROQOK "groq_tensor_layout_to_host(layout, input, inputSize, output, outputSize)"
      (c_tensor_layout_to_host (layout self) input inputSize output outputSize)
      (effect (groq_tensor_layout_to_host (layout self) input inputSize
                 output outputSize)).

Definition fromHost (self : t) (input : ptr) (inputSize : size_t)
    (output : ptr) (outputSize : size_t) : M World unit :=
  if negb (inputSize =? getHostSize self) then
    throw (input_size_mismatch (getHostSize self) inputSize)
  else if negb (outputSize =? getIoSize self) then
    throw (output_size_mismatch (getIoSize self) outputSize)
  else
    GROQOK "groq_tensor_layout_from_host(layout, input, inputSize, output, outputSize)"
      (c_tensor_layout_from_host (layout self) input inputSize output outputSize)
      (effect (groq_tensor_layout_from_host (layout self) input inputSize
                 output outputSize)).
End TensorLayout.
End TensorLayout.

Module IODescriptor.
Section IODescriptor.
Context {io : GroqIO}.

Record t : Type := {
  layouts : list TensorLayout.t;
  size : size_t;
}.

Definition getTensorLayouts (self : t) : list TensorLayout.t := layouts self.
Definition getSize (self : t) : size_t := size self.

(** [IODescriptor::IODescriptor(iodescriptor, size)] *)
Definition new (iodescriptor : handle) (size : size_t) : M World t :=
  n ← GROQOK "groq_iodescriptor_get_number_of_tensor_layouts(iodescriptor, &n)"
        (c_iodescriptor_get_number_of_tensor_layouts iodescriptor)
        (query (groq_iodescriptor_get_number_of_tensor_layouts iodescriptor));
  layouts ← collect (λ nth,
      layout ← GROQOK "groq_iodescriptor_get_nth_tensor_layout(iodescriptor, nth, &layout)"
                 (c_iodescriptor_get_nth_tensor_layout iodescriptor nth)
                 (query (groq_iodescriptor_get_nth_tensor_layout iodescriptor nth));
      name ← GROQOK "groq_tensor_layout_get_name(layout, &name)"
                 (c_tensor_layout_get_name layout)
                 (query (groq_tensor_layout_get_name layout));
      TensorLayout.new layout name size)
    (indices n);
  mret {| layouts := layouts; size := size |}.
End IODescriptor.
End IODescriptor.

Module EntryPoint.
Section EntryPoint.
Context {io : GroqIO}.

Record t : Type := {
  name : string;
  input : IODescriptor.t;
  output : IODescriptor.t;
}.

Definition getName (self : t) : string := name self.
Definition getInputIODescriptor (self : t) : IODescriptor.t := input self.
Definition getOutputIODescriptor (self : t) : IODescriptor.t := output self.

(** [EntryPoint::EntryPoint(entrypoint, name)] *)
Definition new (entrypoint : handle) (name : string) : M World t :=
  inputIod ← GROQOK "groq_entrypoint_get_input_iodescriptor(entrypoint, &inputIod)"
               (c_entrypoint_get_input_iodescriptor entrypoint)
               (query (groq_entrypoint_get_input_iodescriptor entrypoint));
  outputIod ← GROQOK "groq_entrypoint_get_output_iodescriptor(entrypoint, &outputIod)"
               (c_entrypoint_get_output_iodescriptor entrypoint)
               (query (groq_entrypoint_get_output_iodescriptor entrypoint));
  inputSize ← GROQOK "groq_entrypoint_get_input_size(entrypoint, &inputSize)"
               (c_entrypoint_get_input_size entrypoint)
               (query (groq_entrypoint_get_input_size entrypoint));
  outputSize ← GROQOK "groq_entrypoint_get_output_size(entrypoint, &outputSize)"
               (c_entrypoint_get_output_size entrypoint)
               (query (groq_entrypoint_get_output_size entrypoint));
  input ← IODescriptor.new inputIod inputSize;
  output ← IODescriptor.new outputIod outputSize;
  mret {| name := name; input := input; output := output |}.
End EntryPoint.
End EntryPoint.

Module Program.
Section Program.
Context {io : GroqIO}.

Record t : Type := {
  entrypoints : list EntryPoint.t;
  name : string;
}.

Definition getName (self : t) : string := name self.
Definition getEntrypoints (self : t) : list EntryPoint.t := entrypoints self.
Definition numEntrypoints (self : t) : size_t := vsize (entrypoints self).

(** [Program::Program(program, name)] *)
Definition new (program : handle) (name : string) : M World t :=
  n ← GROQOK "groq_get_number_of_entrypoints(program, &n)"
        (c_get_number_of_entrypoints program)
        (query (groq_get_number_of_entrypoints program));
  entrypoints ← collect (λ nth,
      entrypoint ← GROQOK "groq_get_nth_entrypoint(program, nth, &entrypoint)"
                     (c_get_nth_entrypoint program nth)
                     (query (groq_get_nth_entrypoint program nth));
      name ← GROQOK "groq_entrypoint_get_name(entrypoint, &name)"
                     (c_entrypoint_get_name entrypoint)
                     (query (groq_entrypoint_get_name entrypoint));
      EntryPoint.new entrypoint name)
    (indices n);
  mret {| entrypoints := entrypoints; name := name |}.
End Program.
End Program.

Module IOP.
Section IOP.
Context {io : GroqIO}.

Record t : Type := {
  iop : handle;
  data : list Byte.byte;
  programs : list Program.t;
}.

Definition handle (self : t) : handle := iop self.
Definition getPrograms (self : t) : list Program.t := programs self.
Definition numPrograms (self : t) : size_t := vsize (programs self).

(** [IOP::initialize()], on the member [data]; the members [iop] and
    [programs] it leaves. *)
Definition initialize (data : list Byte.byte) : M World (N * list Program.t) :=
  iop ← GROQOK "groq_iop_init(&data[0], data.size(), &iop)"
          (c_iop_init (vsize data))
          (query (groq_iop_init data));
  n ← GROQOK "groq_iop_get_number_of_programs(iop, &n)"
          (c_iop_get_number_of_programs iop)
          (query (groq_iop_get_number_of_programs iop));
  programs ← collect (λ nth,
      program ← GROQOK "groq_get_nth_program(iop, nth, &program)"
                  (c_get_nth_program iop nth)
                  (query (groq_get_nth_program iop nth));
      name ← GROQOK "groq_program_name(iop, nth, &name)"
                  (c_program_name iop nth)
                  (query (groq_program_name iop nth));
      Program.new program name)
    (indices n);
  mret (iop, programs).

(** [IOP::IOP(buffer, size)]: [buffer] is the [size] bytes copied into
    [data]. *)
Definition new (buffer : list Byte.byte) : M World t :=
  '(iop, programs) ← initialize buffer;
  mret {| iop := iop; data := buffer; programs := programs |}.
End IOP.
End IOP.

(** ** SimpleRunner.hpp, SimpleRunner.cpp *)

Module SimpleRunner.
Section SimpleRunner.
Context {io : GroqIO} {build : Build}.

Record t : Type := {
  iop : IOP.t;
  programIndex : size_t;
  entrypointIndex : size_t;
  tspInputSize : size_t;
  tspOutputSize : size_t;
  numInputs : size_t;
  numOutputs : size_t;
  inputIoba : handle;
  outputIoba : handle;
  inputBuffers : list ptr;
  outputBuffers : list ptr;
  inputSizes : list size_t;
  outputSizes : list size_t;
}.

Definition set_inputBuffers (v : list ptr) (self : t) : t :=
  {| iop := iop self; programIndex := programIndex self;
     entrypointIndex := entrypointIndex self;
     tspInputSize := tspInputSize self; tspOutputSize := tspOutputSize self;
     numInputs := numInputs self; numOutputs := numOutputs self;
     inputIoba := inputIoba self; outputIoba := outputIoba self;
     inputBuffers := v; outputBuffers := outputBuffers self;
     inputSizes := inputSizes self; outputSizes := outputSizes self |}.
Definition set_outputBuffers (v : list ptr) (self : t) : t :=
  {| iop := iop self; programIndex := programIndex self;
     entrypointIndex := entrypointIndex self;
     tspInputSize := tspInputSize self; tspOutputSize := tspOutputSize self;
     numInputs := numInputs self; numOutputs := numOutputs self;
     inputIoba := inputIoba self; outputIoba := outputIoba self;
     inputBuffers := inputBuffers self; outputBuffers := v;
     inputSizes := inputSizes self; outputSizes := outputSizes self |}.
Definition set_inputSizes (v : list size_t) (self : t) : t :=
  {| iop := iop self; programIndex := programIndex self;
     entrypointIndex := entrypointIndex self;
     tspInputSize := tspInputSize self; tspOutputSize := tspOutputSize self;
     numInputs := numInputs self; numOutputs := numOutputs self;
     inputIoba := inputIoba self; outputIoba := outputIoba self;
     inputBuffers := inputBuffers self; outputBuffers := outputBuffers self;
     inputSizes := v; outputSizes := outputSizes self |}.
Definition set_outputSizes (v : list size_t) (self : t) : t :=
  {| iop := iop self; programIndex := programIndex self;
     entrypointIndex := entrypointIndex self;
     tspInputSize := tspInputSize self; tspOutputSize := tspOutputSize self;
     numInputs := numInputs self; numOutputs := numOutputs self;
     inputIoba := inputIoba self; outputIoba := outputIoba self;
     inputBuffers := inputBuffers self; outputBuffers := outputBuffers self;
     inputSizes := inputSizes self; outputSizes := v |}.

(** The body of [inputTensorLayouts()], on the members it reads. *)
Definition inputLayoutsOf (iop : IOP.t) (programIndex entrypointIndex : size_t)
    : Outcome (list TensorLayout.t) :=
  program ← at_ (IOP.getPrograms iop) programIndex;
  ep ← at_ (Program.getEntrypoints program) entrypointIndex;
  let input := EntryPoint.getInputIODescriptor ep in
  let layouts := IODescriptor.getTensorLayouts input in
  mret layouts.

(** The body of [outputTensorLayouts()]. *)
Definition outputLayoutsOf (iop : IOP.t) (programIndex entrypointIndex : size_t)
    : Outcome (list TensorLayout.t) :=
  program ← at_ (IOP.getPrograms iop) programIndex;
  ep ← at_ (Program.getEntrypoints program) entrypointIndex;
  let input := EntryPoint.getOutputIODescriptor ep in
  let layouts := IODescriptor.getTensorLayouts input in
  mret layouts.

Definition inputTensorLayouts (self : t) : Outcome (list TensorLayout.t) :=
  inputLayoutsOf (iop self) (programIndex self) (entrypointIndex self).

Definition outputTensorLayouts (self : t) : Outcome (list TensorLayout.t) :=
  outputLayoutsOf (iop self) (programIndex self) (entrypointIndex self).

(** [SimpleRunner::SimpleRunner(driver, iop, programIndex, entrypointIndex)];
    the members are initialised in the order of their declaration. *)
Definition new (driver : handle) (iop : IOP.t)
    (programIndex entrypointIndex : size_t) : M World t :=
  let tspInputSize := groq_program_get_input_size (IOP.handle iop) programIndex in
  let tspOutputSize := groq_program_get_output_size (IOP.handle iop) programIndex in
  ins ← lift (inputLayoutsOf iop programIndex entrypointIndex);
  let numInputs := vsize ins in
  outs ← lift (outputLayoutsOf iop programIndex entrypointIndex);
  let numOutputs := vsize outs in
  inputIoba ← GROQOK "groq_allocate_inputs_iobuffer_array(driver.handle(), iop.handle(), 1, &inputIoba)"
                (c_allocate_inputs_iobuffer_array driver (IOP.handle iop) 1)
                (groq_allocate_inputs_iobuffer_array driver (IOP.handle iop) 1);
  outputIoba ← GROQOK "groq_allocate_outputs_iobuffer_array(driver.handle(), iop.handle(), 1, &outputIoba)"
                (c_allocate_outputs_iobuffer_array driver (IOP.handle iop) 1)
                (groq_allocate_outputs_iobuffer_array driver (IOP.handle iop) 1);
  assert (negb (inputIoba =? nullptr));;
  assert (negb (outputIoba =? nullptr));;
  mret {| iop := iop; programIndex := programIndex;
          entrypointIndex := entrypointIndex;
          tspInputSize := tspInputSize; tspOutputSize := tspOutputSize;
          numInputs := numInputs; numOutputs := numOutputs;
          inputIoba := inputIoba; outputIoba := outputIoba;
          inputBuffers := replicate (N.to_nat numInputs) nullptr;
          outputBuffers := replicate (N.to_nat numOutputs) nullptr;
          inputSizes := replicate (N.to_nat numInputs) 0;
          outputSizes := replicate (N.to_nat numOutputs) 0 |}.

(** The exception of the two bind calls. *)
Definition bad_data_size (expected actual : size_t) : exn :=
  runtime_error ("Bad data size; expected " +:+ to_string expected
                 +:+ " got " +:+ to_string actual).

Definition addInputBuffer (buffer : ptr) (size index : size_t) : M t unit :=
  self ← get;
  layouts ← lift (inputTensorLayouts self);
  layout ← lift (at_ layouts index);
  if negb (size =? TensorLayout.getHostSize layout) then
    throw (bad_data_size (TensorLayout.getHostSize layout) size)
  else
    assert (negb (buffer =? nullptr));;
    self ← get;
    v ← lift (at_put (inputBuffers self) index buffer);
    put (set_inputBuffers v self);;
    self ← get;
    v ← lift (at_put (inputSizes self) index size);
    put (set_inputSizes v self).

Definition addOutputBuffer (buffer : ptr) (size index : size_t) : M t unit :=
  self ← get;
  layouts ← lift (outputTensorLayouts self);
  layout ← lift (at_ layouts index);
  if negb (size =? TensorLayout.getHostSize layout) then
    throw (bad_data_size (TensorLayout.getHostSize layout) size)
  else
    assert (negb (buffer =? nullptr));;
    self ← get;
    v ← lift (at_put (outputBuffers self) index buffer);
    put (set_outputBuffers v self);;
    self ← get;
    v ← lift (at_put (outputSizes self) index size);
    put (set_outputSizes v self).

(** The body of the first loop of [invoke], for one [i]. *)
Definition invoke_input (self : t) (i : size_t) : M World unit :=
  layouts ← lift (inputTensorLayouts self);
  layout ← lift (at_ layouts i);
  input ← lift (at_ (inputBuffers self) i);
  inputSize ← lift (at_ (inputSizes self) i);
  let outputSize := tspInputSize self in
  output ← GROQOK "groq_get_data_handle(inputIoba, 0, &output)"
             (c_get_data_handle (inputIoba self) 0)
             (groq_get_data_handle (inputIoba self) 0);
  assert (negb (input =? nullptr));;
  assert (negb (output =? nullptr));;
  TensorLayout.fromHost layout input inputSize output outputSize.

(** The body of the second loop of [invoke], for one [i]. *)
Definition invoke_output (self : t) (i : size_t) : M World unit :=
  layouts ← lift (outputTensorLayouts self);
  layout ← lift (at_ layouts i);
  output ← lift (at_ (outputBuffers self) i);
  let inputSize := TensorLayout.getIoSize layout in
  outputSize ← lift (at_ (outputSizes self) i);
  input ← GROQOK "groq_get_data_handle(outputIoba, 0, &input)"
             (c_get_data_handle (outputIoba self) 0)
             (groq_get_data_handle (outputIoba self) 0);
  assert (negb (input =? nullptr));;
  assert (negb (output =? nullptr));;
  TensorLayout.toHost layout input inputSize output outputSize.

(** The execute call and the wait between the two loops. *)
Definition invoke_execute (self : t) (device : handle) : M World unit :=
  let nthInput := 0 in
  let nthOutput := 0 in
  completion ← GROQOK "groq_invoke(device.handle(), inputIoba, nthInput, outputIoba, nthOutput, &completion)"
                 (c_invoke device (inputIoba self) nthInput (outputIoba self) nthOutput)
                 (groq_invoke device (inputIoba self) nthInput
                    (outputIoba self) nthOutput);
  GROQOK "groq_wait_for_completion(completion, 30000)"
    (c_wait_for_completion completion 30000)
    (effect (groq_wait_for_completion completion 30000)).

(** [SimpleRunner::invoke(device)] *)
Definition invoke (self : t) (device : handle) : M World unit :=
  assert (negb (inputIoba self =? nullptr));;
  assert (negb (outputIoba self =? nullptr));;
  (* transform user's input data into layout expected by TSP *)
  foreach (invoke_input self) (indices (numInputs self));;
  invoke_execute self device;;
  (* transform TSP's output data into layout expected by user *)
  foreach (invoke_output self) (indices (numOutputs self)).
End SimpleRunner.
End SimpleRunner.

(** ** matmul_example.cpp: SimpleMatrix *)

(** [SimpleMatrix<T>] for an integer type [T]: the elements are integers.
    [size_t] has 64 bits and its arithmetic wraps around; [mult<R>] is the
    instance at [R = int32_t] that [main] uses, with the two's-complement
    wrap-around of 32-bit arithmetic written out.  The functions throw
    [std::out_of_range]: from [at], with the message [bad row] or
    [bad col], and from [std::vector::at]. *)
Module SimpleMatrix.

Inductive failure : Type :=
| bad_row           (* std::out_of_range("bad row") *)
| bad_col           (* std::out_of_range("bad col") *)
| bad_index         (* std::out_of_range of std::vector::at *)
| past_the_end.     (* operator[] past the end of the vector: undefined in
                       C++; the embedding stops there *)

Inductive Try (A : Type) : Type :=
| value (a : A)
| thrown (f : failure).
Arguments value {A} a.
Arguments thrown {A} f.

#[global] Instance Try_ret : MRet Try := @value.
#[global] Instance Try_bind : MBind Try := λ A B k t,
  match t with
  | value a => k a
  | thrown f => thrown f
  end.

(** A loop over [l] on the state [s]. *)
Fixpoint loop {A St} (body : A → St → Try St) (l : list A) (s : St) : Try St :=
  match l with
  | [] => value s
  | x :: l' => s' ← body x s; loop body l' s'
  end.

(** Arithmetic of [size_t] and of [int32_t]. *)
Definition size (n : N) : size_t := n `mod` 2 ^ 64.
Definition int32 (z : Z) : Z := ((z + 2 ^ 31) `mod` 2 ^ 32 - 2 ^ 31)%Z.

Record t : Type := {
  nrows : size_t;
  ncols : size_t;
  data : list Z;
}.

(** [SimpleMatrix(rows, cols)] *)
Definition new (rows cols : size_t) : t :=
  {| nrows := rows; ncols := cols;
     data := replicate (N.to_nat (size (rows * cols))) 0%Z |}.

(** The checks of [at(row, col)], and the position in [data] of the element
    it refers to. *)
Definition at_position (self : t) (row col : size_t) : Try size_t :=
  if nrows self <=? row then thrown bad_row
  else if ncols self <=? col then thrown bad_col
  else
    let n := size (size (row * ncols self) + col) in
    if n <? vsize (data self) then value n else thrown bad_index.

(** [at(row, col)], read. *)
Definition at_ (self : t) (row col : size_t) : Try Z :=
  n ← at_position self row col;
  match data self !! N.to_nat n with
  | Some x => value x
  | None => thrown bad_index
  end.

(** [at(row, col) += v] on a [SimpleMatrix<int32_t>]. *)
Definition add_at (self : t) (row col : size_t) (v : Z) : Try t :=
  x ← at_ self row col;
  n ← at_position self row col;
  value {| nrows := nrows self; ncols := ncols self;
           data := <[N.to_nat n := int32 (x + v)]> (data self) |}.

(** [data[n] = v] *)
Definition store (self : t) (n : size_t) (v : Z) : Try t :=
  if n <? vsize (data self) then
    value {| nrows := nrows self; ncols := ncols self;
             data := <[N.to_nat n := v]> (data self) |}
  else thrown past_the_end.

(** [mult<int32_t>(other)] *)
Definition mult (self other : t) : Try t :=
  let result := new (nrows self) (ncols other) in
  loop (λ i,
    loop (λ j,
      loop (λ k result,
        x ← at_ self i k;
        let t1 := int32 x in
        y ← at_ other k j;
        let t2 := int32 y in
        add_at result i j (int32 (t1 * t2)))
      (indices (ncols self)))
    (indices (ncols other)))
  (indices (nrows self)) result.

(** [transpose()] *)
Definition transpose (self : t) : Try t :=
  let other := self in
  let n := 0 in
  '(other, n) ← loop (λ j,
      loop (λ i '(other, n),
        v ← at_ self i j;
        other ← store other n v;
        value (other, size (n + 1)))
      (indices (nrows self)))
    (indices (ncols self)) (other, n);
  value {| nrows := ncols self; ncols := nrows self; data := data other |}.

(** [rawSize()], for [sizeof(T)] bytes per element. *)
Definition rawSize (sizeof_T : size_t) (self : t) : size_t :=
  size (vsize (data self) * sizeof_T).

(** [operator==] *)
Definition eqb (self other : t) : bool :=
  bool_decide (data self = data other)
  && (nrows self =? nrows other) && (ncols self =? ncols other).
End SimpleMatrix.

(** ** A small implementation of groqio.h *)

(** One program [mm] with one entrypoint [main]; every descriptor has two
    tensors: the inputs [A] (2 bytes) and [B] (3 bytes), the outputs [C]
    (4 bytes) and [D] (1 byte); each direction takes 8 bytes on the device.
    Memory is a map from the address of a buffer to its bytes.  An empty
    container is refused by [groq_iop_init]; [invoke_status] and
    [wait_status] are what the execute call and the wait report. *)
Module Stub.
Abbreviation memory := (gmap N (list Byte.byte)).

Definition read (w : memory) (p : ptr) (n : size_t) : list Byte.byte :=
  take (N.to_nat n) (default [] (w !! p)).

Definition tensor_name (layout : handle) : string :=
  if layout =? 300 then "A" else if layout =? 301 then "B"
  else if layout =? 310 then "C" else "D".

Definition tensor_size (layout : handle) : size_t :=
  if layout =? 300 then 2 else if layout =? 301 then 3
  else if layout =? 310 then 4 else 1.

(** Where a tensor starts in the device buffer of its direction. *)
Definition slot (layout : handle) : N := (layout `mod` 10) * 4.

Definition groqio (invoke_status wait_status : Status) : GroqIO := {|
  World := memory;
  load := read;
  GROQ_SUCCESS := 0%Z;
  groq_iop_init data := match data with [] => (1%Z, 0) | _ => (0%Z, 1) end;
  groq_iop_get_number_of_programs _ := (0%Z, 1);
  groq_get_nth_program _ nth := (0%Z, 10 + nth);
  groq_program_name _ _ := (0%Z, "mm");
  groq_program_get_input_size _ _ := 8;
  groq_program_get_output_size _ _ := 8;
  groq_get_number_of_entrypoints _ := (0%Z, 1);
  groq_get_nth_entrypoint _ nth := (0%Z, 20 + nth);
  groq_entrypoint_get_name _ := (0%Z, "main");
  groq_entrypoint_get_input_iodescriptor _ := (0%Z, 30);
  groq_entrypoint_get_output_iodescriptor _ := (0%Z, 31);
  groq_entrypoint_get_input_size _ := (0%Z, 8);
  groq_entrypoint_get_output_size _ := (0%Z, 8);
  groq_iodescriptor_get_number_of_tensor_layouts _ := (0%Z, 2);
  groq_iodescriptor_get_nth_tensor_layout iod nth := (0%Z, iod * 10 + nth);
  groq_tensor_layout_get_name layout := (0%Z, tensor_name layout);
  groq_tensor_layout_get_number_of_dimensions _ := (0%Z, 1);
  groq_tensor_layout_get_size layout := (0%Z, tensor_size layout);
  groq_tensor_layout_get_format _ := (0%Z, 1%Z);
  groq_tensor_layout_get_nth_dimension layout _ := (0%Z, tensor_size layout);
  groq_tensor_layout_to_host layout input inputSize output outputSize w :=
    (0%Z, <[output := read w (input + slot layout) outputSize]> w);
  groq_tensor_layout_from_host layout input inputSize output outputSize w :=
    (0%Z, <[output + slot layout := read w input inputSize]> w);
  groq_allocate_inputs_iobuffer_array _ _ _ w := (0%Z, 40, w);
  groq_allocate_outputs_iobuffer_array _ _ _ w := (0%Z, 41, w);
  groq_get_data_handle ioba _ w := (0%Z, ioba * 100, w);
  groq_invoke _ inputs _ outputs _ w :=
    (invoke_status, 50, <[outputs * 100 := read w (inputs * 100) 4]> w);
  groq_wait_for_completion _ _ w := (wait_status, w);
|}.

(** The device that executes and completes. *)
Definition io : GroqIO := groqio 0 0.

(** The default build keeps the assertions. *)
Definition debug : Build := {| NDEBUG := false |}.

Definition container : list Byte.byte := [Byte.x47; Byte.x52; Byte.x51].

(** Host memory: [A] at 100, [B] at 200. *)
Definition w0 : memory :=
  <[100 := [Byte.x01; Byte.x02]]> (<[200 := [Byte.x03; Byte.x04; Byte.x05]]> ∅).

(** The tree this container declares. *)
Definition tensor (layout : handle) (iodSize : size_t) : TensorLayout.t :=
  {| TensorLayout.layout := layout;
     TensorLayout.name := tensor_name layout;
     TensorLayout.iodSize := iodSize;
     TensorLayout.size := tensor_size layout;
     TensorLayout.format := 1%Z;
     TensorLayout.dimensions := [tensor_size layout] |}.

Definition tensorA : TensorLayout.t := tensor 300 8.
Definition tensorB : TensorLayout.t := tensor 301 8.
Definition tensorC : TensorLayout.t := tensor 310 8.
Definition tensorD : TensorLayout.t := tensor 311 8.

Definition tree : IOP.t :=
  {| IOP.iop := 1;
     IOP.data := container;
     IOP.programs :=
       [ {| Program.name := "mm";
            Program.entrypoints :=
              [ {| EntryPoint.name := "main";
                   EntryPoint.input :=
                     {| IODescriptor.layouts := [tensorA; tensorB];
                        IODescriptor.size := 8 |};
                   EntryPoint.output :=
                     {| IODescriptor.layouts := [tensorC; tensorD];
                        IODescriptor.size := 8 |} |} ] |} ] |}.

(** The session [SimpleRunner(driver, iop)] leaves for the driver 7, and
    that session with [A] bound to the buffer at 100, [B] to the one at
    200, [C] to the one at 600 and [D] to the one at 700. *)
Definition fresh : SimpleRunner.t :=
  {| SimpleRunner.iop := tree;
     SimpleRunner.programIndex := 0;
     SimpleRunner.entrypointIndex := 0;
     SimpleRunner.tspInputSize := 8;
     SimpleRunner.tspOutputSize := 8;
     SimpleRunner.numInputs := 2;
     SimpleRunner.numOutputs := 2;
     SimpleRunner.inputIoba := 40;
     SimpleRunner.outputIoba := 41;
     SimpleRunner.inputBuffers := [nullptr; nullptr];
     SimpleRunner.outputBuffers := [nullptr; nullptr];
     SimpleRunner.inputSizes := [0; 0];
     SimpleRunner.outputSizes := [0; 0] |}.

Definition bound : SimpleRunner.t :=
  SimpleRunner.set_outputSizes [4; 1]
    (SimpleRunner.set_outputBuffers [600; 700]
       (SimpleRunner.set_inputSizes [2; 3]
          (SimpleRunner.set_inputBuffers [100; 200] fresh))).
End Stub.

(** ** Vocabulary of the properties *)

(** [wp m Q s]: the run of [m] from [s] ends in an outcome, a state and a
    list of calls that satisfy [Q]. *)
Definition wp {S A} (m : M S A) (Q : Outcome A → S → list Event → Prop) (s : S) : Prop :=
  Q (outcome (m s)) (final (m s)) (calls (m s)).

(** A run that threw [e] at once: nothing was called, nothing changed. *)
Definition refused {S A} (e : exn) (s : S) : Run S A :=
  {| outcome := Throw e; final := s; calls := [] |}.

Section vocabulary.
Context {io : GroqIO} {build : Build}.

(** A run that made the one call [c], which returned [r]. *)
Definition delegated (x : string) (c : Call) (r : Status * World) : Run World unit :=
  {| outcome := if decide (r.1 = GROQ_SUCCESS) then Ok tt
                else Throw (groq_error r.1 x);
     final := r.2;
     calls := [(c, r.1)] |}.


(** *** Parsing *)

Definition failed (ev : Event) : Prop := ev.2 ≠ GROQ_SUCCESS.

(** What a constructor that checks every call leaves: when it returned,
    every call succeeded and the object satisfies [Shape]; when it threw,
    the last call it made failed, the ones before succeeded, and the
    exception is that of [GROQOK] for the failed call; it never aborts. *)
Definition parsed_as {A} (Shape : A → Prop) (o : Outcome A) (evs : list Event) : Prop :=
  match o with
  | Ok a => Forall succeeded evs ∧ Shape a
  | Throw e => ∃ before c status x,
      evs = before ++ [(c, status)] ∧ Forall succeeded before ∧
      status ≠ GROQ_SUCCESS ∧ e = groq_error status x
  | Abort => False
  end.

(** The tree a container declares, read off the values its queries
    return: the tensors, entrypoints and programs in the order of their
    numbers. *)
Definition declared_layout (layout : handle) (name : string) (iodSize : size_t)
    : TensorLayout.t :=
  {| TensorLayout.layout := layout;
     TensorLayout.name := name;
     TensorLayout.iodSize := iodSize;
     TensorLayout.size := (groq_tensor_layout_get_size layout).2;
     TensorLayout.format := (groq_tensor_layout_get_format layout).2;
     TensorLayout.dimensions :=
       (λ nth, (groq_tensor_layout_get_nth_dimension layout nth).2) <$>
         indices (groq_tensor_layout_get_number_of_dimensions layout).2 |}.

Definition declared_tensor (iod : handle) (size nth : size_t) : TensorLayout.t :=
  let layout := (groq_iodescriptor_get_nth_tensor_layout iod nth).2 in
  declared_layout layout (groq_tensor_layout_get_name layout).2 size.

Definition declared_iodescriptor (iod : handle) (size : size_t) : IODescriptor.t :=
  {| IODescriptor.layouts :=
       declared_tensor iod size <$>
         indices (groq_iodescriptor_get_number_of_tensor_layouts iod).2;
     IODescriptor.size := size |}.

Definition declared_entrypoint (entrypoint : handle) (name : string) : EntryPoint.t :=
  {| EntryPoint.name := name;
     EntryPoint.input :=
       declared_iodescriptor (groq_entrypoint_get_input_iodescriptor entrypoint).2
         (groq_entrypoint_get_input_size entrypoint).2;
     EntryPoint.output :=
       declared_iodescriptor (groq_entrypoint_get_output_iodescriptor entrypoint).2
         (groq_entrypoint_get_output_size entrypoint).2 |}.

Definition declared_nth_entrypoint (program : handle) (nth : size_t) : EntryPoint.t :=
  let entrypoint := (groq_get_nth_entrypoint program nth).2 in
  declared_entrypoint entrypoint (groq_entrypoint_get_name entrypoint).2.

Definition declared_program (program : handle) (name : string) : Program.t :=
  {| Program.entrypoints :=
       declared_nth_entrypoint program <$>
         indices (groq_get_number_of_entrypoints program).2;
     Program.name := name |}.

Definition declared_nth_program (iop : handle) (nth : size_t) : Program.t :=
  declared_program (groq_get_nth_program iop nth).2 (groq_program_name iop nth).2.

Definition declared_iop (data : list Byte.byte) : IOP.t :=
  let iop := (groq_iop_init data).2 in
  {| IOP.iop := iop;
     IOP.data := data;
     IOP.programs :=
       declared_nth_program iop <$> indices (groq_iop_get_number_of_programs iop).2 |}.

(** The tensors [layouts] of a parsed descriptor are the [n] tensors of
    the descriptor [iod] of the container, in the order of their numbers. *)
Definition in_declaration_order (iod : handle) (n : size_t)
    (layouts : list TensorLayout.t) : Prop :=
  vsize layouts = n ∧
  ∀ (k : nat) l, layouts !! k = Some l →
    let nth := N.of_nat k in
    let layout := (groq_iodescriptor_get_nth_tensor_layout iod nth).2 in
    TensorLayout.layout l = layout ∧
    TensorLayout.getName l = (groq_tensor_layout_get_name layout).2 ∧
    TensorLayout.getHostSize l = (groq_tensor_layout_get_size layout).2.

(** *** Sessions *)

(** Tensor [i] of the input, and of the output, descriptor of a session. *)
Definition input_layout (r : SimpleRunner.t) (i : size_t) : option TensorLayout.t :=
  match SimpleRunner.inputTensorLayouts r with
  | Ok layouts => layouts !! N.to_nat i
  | _ => None
  end.

Definition output_layout (r : SimpleRunner.t) (i : size_t) : option TensorLayout.t :=
  match SimpleRunner.outputTensorLayouts r with
  | Ok layouts => layouts !! N.to_nat i
  | _ => None
  end.

(** What the constructor establishes and the bind calls keep: the program
    and the entrypoint exist, and there is one slot per tensor. *)
Definition session (r : SimpleRunner.t) : Prop :=
  ∃ ins outs,
    SimpleRunner.inputTensorLayouts r = Ok ins ∧
    SimpleRunner.outputTensorLayouts r = Ok outs ∧
    SimpleRunner.numInputs r = vsize ins ∧
    SimpleRunner.numOutputs r = vsize outs ∧
    length (SimpleRunner.inputBuffers r) = length ins ∧
    length (SimpleRunner.inputSizes r) = length ins ∧
    length (SimpleRunner.outputBuffers r) = length outs ∧
    length (SimpleRunner.outputSizes r) = length outs.

(** The session after [addInputBuffer(buffer, size, index)] returned, and
    after [addOutputBuffer(buffer, size, index)] returned. *)
Definition with_input (buffer : ptr) (size index : size_t) (r : SimpleRunner.t)
    : SimpleRunner.t :=
  SimpleRunner.set_inputSizes (<[N.to_nat index := size]> (SimpleRunner.inputSizes r))
    (SimpleRunner.set_inputBuffers
       (<[N.to_nat index := buffer]> (SimpleRunner.inputBuffers r)) r).

Definition with_output (buffer : ptr) (size index : size_t) (r : SimpleRunner.t)
    : SimpleRunner.t :=
  SimpleRunner.set_outputSizes (<[N.to_nat index := size]> (SimpleRunner.outputSizes r))
    (SimpleRunner.set_outputBuffers
       (<[N.to_nat index := buffer]> (SimpleRunner.outputBuffers r)) r).

(** Input [i] still has the slot the constructor gave it. *)
Definition unbound_input (r : SimpleRunner.t) (i : size_t) : Prop :=
  SimpleRunner.inputBuffers r !! N.to_nat i = Some nullptr ∧
  SimpleRunner.inputSizes r !! N.to_nat i = Some 0.

(** A run that returned at once, leaving [s]. *)
Definition returned {S} (s : S) : Run S unit :=
  {| outcome := Ok tt; final := s; calls := [] |}.

(** A run that failed an assertion at once. *)
Definition aborted {S A} (s : S) : Run S A :=
  {| outcome := Abort; final := s; calls := [] |}.

(** *** The calls of invoke *)

Definition data_handle_call (c : Call) : bool :=
  match c with c_get_data_handle _ _ => true | _ => false end.
Definition input_transcode (c : Call) : bool :=
  match c with c_tensor_layout_from_host _ _ _ _ _ => true | _ => false end.
Definition output_transcode (c : Call) : bool :=
  match c with c_tensor_layout_to_host _ _ _ _ _ => true | _ => false end.
Definition execute_call (c : Call) : bool :=
  match c with c_invoke _ _ _ _ _ => true | _ => false end.
Definition wait_call (c : Call) : bool :=
  match c with c_wait_for_completion _ _ => true | _ => false end.

(** The calls of the three phases of [invoke]. *)
Definition input_phase (ev : Event) : Prop :=
  data_handle_call ev.1 || input_transcode ev.1 = true.
Definition execute_phase (ev : Event) : Prop :=
  execute_call ev.1 || wait_call ev.1 = true.
Definition output_phase (ev : Event) : Prop :=
  data_handle_call ev.1 || output_transcode ev.1 = true.

(** How many input transcodes, and how many execute calls, were made. *)
Definition transcodes (evs : list Event) : nat :=
  length (List.filter (λ ev, input_transcode ev.1) evs).
Definition executions (evs : list Event) : nat :=
  length (List.filter (λ ev, execute_call ev.1) evs).

(** [c] is the conversion call that [invoke] makes for input tensor [j]. *)
Definition transcode_of_input (r : SimpleRunner.t) (j : size_t) (c : Call) : Prop :=
  ∃ layout input inputSize output,
    input_layout r j = Some layout ∧
    SimpleRunner.inputBuffers r !! N.to_nat j = Some input ∧
    SimpleRunner.inputSizes r !! N.to_nat j = Some inputSize ∧
    c = c_tensor_layout_from_host (TensorLayout.layout layout)
          input inputSize output (SimpleRunner.tspInputSize r).

(** A call of the first loop while it handles the tensors [js]. *)
Definition input_call (r : SimpleRunner.t) (js : list size_t) (ev : Event) : Prop :=
  data_handle_call ev.1 = true ∨ ∃ j, j ∈ js ∧ transcode_of_input r j ev.1.

(** The execute call of [invoke(device)]. *)
Definition the_execute (r : SimpleRunner.t) (device : handle) : Call :=
  c_invoke device (SimpleRunner.inputIoba r) 0 (SimpleRunner.outputIoba r) 0.

(** [invoke] up to the execute call: the assertions and the first loop. *)
Definition before_execute (r : SimpleRunner.t) : M World unit :=
  assert (negb (SimpleRunner.inputIoba r =? nullptr));;
  assert (negb (SimpleRunner.outputIoba r =? nullptr));;
  foreach (SimpleRunner.invoke_input r) (indices (SimpleRunner.numInputs r)).

(** The second loop of [invoke]. *)
Definition after_execute (r : SimpleRunner.t) : M World unit :=
  foreach (SimpleRunner.invoke_output r) (indices (SimpleRunner.numOutputs r)).

(** What one round of the first loop does: it asks for the data handle and
    converts tensor [i]; when it returns both calls succeeded. *)
Definition input_round (r : SimpleRunner.t) (i : size_t)
    (o : Outcome unit) (evs : list Event) : Prop :=
  Forall (input_call r [i]) evs ∧
  (o = Ok tt → Forall succeeded evs ∧ transcodes evs = 1%nat).

(** How the execute call and the wait of [invoke(device)] can go: the
    execute call fails; it succeeds and the wait, of 30000 milliseconds,
    fails; both succeed. *)
Inductive executed (r : SimpleRunner.t) (device : handle)
    : Outcome unit → list Event → Prop :=
| execute_failed status x :
    status ≠ GROQ_SUCCESS →
    executed r device (Throw (groq_error status x)) [(the_execute r device, status)]
| wait_failed completion status x :
    status ≠ GROQ_SUCCESS →
    executed r device (Throw (groq_error status x))
      [(the_execute r device, GROQ_SUCCESS);
       (c_wait_for_completion completion 30000, status)]
| completed completion :
    executed r device (Ok tt)
      [(the_execute r device, GROQ_SUCCESS);
       (c_wait_for_completion completion 30000, GROQ_SUCCESS)].
End vocabulary.

(** *** Sessions, further *)

Section sessions.
Context {io : GroqIO} {build : Build}.

(** Output [i] still has the slot the constructor gave it. *)
Definition unbound_output (r : SimpleRunner.t) (i : size_t) : Prop :=
  SimpleRunner.outputBuffers r !! N.to_nat i = Some nullptr ∧
  SimpleRunner.outputSizes r !! N.to_nat i = Some 0.

(** Tensor [i] holds a buffer that is not null, of the host size of the
    tensor: what a bind call that returned leaves. *)
Definition bound_input (r : SimpleRunner.t) (i : size_t) : Prop :=
  ∃ layout buffer,
    input_layout r i = Some layout ∧
    SimpleRunner.inputBuffers r !! N.to_nat i = Some buffer ∧
    buffer ≠ nullptr ∧
    SimpleRunner.inputSizes r !! N.to_nat i = Some (TensorLayout.getHostSize layout).

Definition bound_output (r : SimpleRunner.t) (i : size_t) : Prop :=
  ∃ layout buffer,
    output_layout r i = Some layout ∧
    SimpleRunner.outputBuffers r !! N.to_nat i = Some buffer ∧
    buffer ≠ nullptr ∧
    SimpleRunner.outputSizes r !! N.to_nat i = Some (TensorLayout.getHostSize layout).

Definition fully_bound (r : SimpleRunner.t) : Prop :=
  session r ∧
  (∀ i, i < SimpleRunner.numInputs r → bound_input r i) ∧
  (∀ i, i < SimpleRunner.numOutputs r → bound_output r i).

(** The members that are [const], and the two buffer arrays. *)
Definition same_members (r r' : SimpleRunner.t) : Prop :=
  SimpleRunner.iop r' = SimpleRunner.iop r ∧
  SimpleRunner.programIndex r' = SimpleRunner.programIndex r ∧
  SimpleRunner.entrypointIndex r' = SimpleRunner.entrypointIndex r ∧
  SimpleRunner.tspInputSize r' = SimpleRunner.tspInputSize r ∧
  SimpleRunner.tspOutputSize r' = SimpleRunner.tspOutputSize r ∧
  SimpleRunner.numInputs r' = SimpleRunner.numInputs r ∧
  SimpleRunner.numOutputs r' = SimpleRunner.numOutputs r ∧
  SimpleRunner.inputIoba r' = SimpleRunner.inputIoba r ∧
  SimpleRunner.outputIoba r' = SimpleRunner.outputIoba r.

(** How many output transcodes were made. *)
Definition output_transcodes (evs : list Event) : nat :=
  length (List.filter (λ ev, output_transcode ev.1) evs).

(** A run that fails only where groqio.h fails it: when it returned every
    call succeeded; when it threw, the last call failed, the ones before
    succeeded and the exception is the one of [GROQOK]; it aborts only in a
    build that keeps the assertions. *)
Definition only_calls_fail {A} (o : Outcome A) (evs : list Event) : Prop :=
  match o with
  | Ok _ => Forall succeeded evs
  | Throw e => ∃ before c status x,
      evs = before ++ [(c, status)] ∧ Forall succeeded before ∧
      status ≠ GROQ_SUCCESS ∧ e = groq_error status x
  | Abort => NDEBUG = false ∧ Forall succeeded evs
  end.

(** The two calls of the constructor. *)
Definition allocate_inputs (driver : handle) (iop : IOP.t) : Call :=
  c_allocate_inputs_iobuffer_array driver (IOP.handle iop) 1.
Definition allocate_outputs (driver : handle) (iop : IOP.t) : Call :=
  c_allocate_outputs_iobuffer_array driver (IOP.handle iop) 1.
End sessions.

(** *** Matrices *)

(** A matrix as its constructor leaves it: one element per position, and
    the number of positions fits [size_t]. *)
Definition matrix_wf (m : SimpleMatrix.t) : Prop :=
  vsize (SimpleMatrix.data m) = SimpleMatrix.nrows m * SimpleMatrix.ncols m ∧
  SimpleMatrix.nrows m * SimpleMatrix.ncols m < 2 ^ 64.

(** The element in row [row] and column [col] of the row-major [data]. *)
Definition entry (m : SimpleMatrix.t) (row col : N) : Z :=
  default 0%Z (SimpleMatrix.data m !! N.to_nat (row * SimpleMatrix.ncols m + col)).

(** The values of [int8_t]. *)
Definition int8 (z : Z) : Prop := (-128 ≤ z ≤ 127)%Z.

(** Every element of a matrix is a value of [int8_t]. *)
Definition int8_matrix (m : SimpleMatrix.t) : Prop :=
  ∀ row col, row < SimpleMatrix.nrows m → col < SimpleMatrix.ncols m →
    int8 (entry m row col).

(** The sum over [k] of [a(i, k) * b(k, j)], in the integers. *)
Definition dot (a b : SimpleMatrix.t) (i j : N) : Z :=
  foldl (λ acc k, acc + entry a i k * entry b k j)%Z 0%Z
        (indices (SimpleMatrix.ncols a)).

(** The same sum as [mult<int32_t>] accumulates it, from [x], over the
    columns [ks]: every conversion, product and addition in [int32_t]. *)
Definition dot32_from (a b : SimpleMatrix.t) (i j : N) (x : Z) (ks : list N) : Z :=
  foldl (λ acc k,
           SimpleMatrix.int32
             (acc + SimpleMatrix.int32
                      (SimpleMatrix.int32 (entry a i k) *
                       SimpleMatrix.int32 (entry b k j))))%Z
        x ks.

Definition dot32 (a b : SimpleMatrix.t) (i j : N) : Z :=
  dot32_from a b i j 0%Z (indices (SimpleMatrix.ncols a)).

(** ** Reasoning about runs *)

Ltac unfold_monad :=
  unfold mbind, mret, M_bind, M_ret, Outcome_bind, Outcome_ret,
         bind, ret, throw, abort, lift, get, put in *.

Section wp.
Context {S : Type}.
Implicit Types s : S.

Lemma wp_mono {A} (m : M S A) (Q Q' : Outcome A → S → list Event → Prop) s :
  wp m Q s → (∀ o s' evs, Q o s' evs → Q' o s' evs) → wp m Q' s.
Proof. unfold wp. auto. Qed.

Lemma wp_ret {A} (a : A) (Q : Outcome A → S → list Event → Prop) s :
  Q (Ok a) s [] → wp (mret a) Q s.
Proof. done. Qed.

Lemma wp_lift {A} (o : Outcome A) (Q : Outcome A → S → list Event → Prop) s :
  Q o s [] → wp (lift o) Q s.
Proof. done. Qed.

(** Sequencing: the continuation runs from the state [m] left, after the
    calls [m] made, and only when [m] returned. *)
Lemma wp_bind {A B} (m : M S A) (k : A → M S B)
    (Q : Outcome B → S → list Event → Prop) s :
  wp m (λ o s1 evs1,
    match o with
    | Ok a => wp (k a) (λ o2 s2 evs2, Q o2 s2 (evs1 ++ evs2)) s1
    | Throw e => Q (Throw e) s1 evs1
    | Abort => Q Abort s1 evs1
    end) s →
  wp (m ≫= k) Q s.
Proof.
  unfold wp. unfold_monad. simpl. by destruct (outcome (m s)).
Qed.

Lemma wp_assert {build : Build} (c : bool) (Q : Outcome unit → S → list Event → Prop) s :
  (NDEBUG = true ∨ c = true → Q (Ok tt) s []) →
  (NDEBUG = false → c = false → Q Abort s []) →
  wp (assert c) Q s.
Proof.
  unfold wp, assert. destruct NDEBUG, c; simpl; auto.
Qed.

(** A loop run for its effects keeps an invariant [I] of the elements done
    and the calls made so far for as long as its body returns; when the
    body fails the loop ends with that failure. *)
Lemma wp_foreach {A} (body : A → M S unit) (l : list A)
    (I : list A → S → list Event → Prop)
    (Q : Outcome unit → S → list Event → Prop) s :
  I [] s [] →
  (∀ done x rest s1 evs1, l = done ++ x :: rest → I done s1 evs1 →
     wp (body x) (λ o s2 evs2,
       match o with
       | Ok _ => I (done ++ [x]) s2 (evs1 ++ evs2)
       | Throw e => Q (Throw e) s2 (evs1 ++ evs2)
       | Abort => Q Abort s2 (evs1 ++ evs2)
       end) s1) →
  (∀ s' evs, I l s' evs → Q (Ok tt) s' evs) →
  wp (foreach body l) Q s.
Proof.
  intros Hinit Hbody Hdone.
  cut (∀ done rest s1 evs1, done ++ rest = l → I done s1 evs1 →
         wp (foreach body rest) (λ o s2 evs2, Q o s2 (evs1 ++ evs2)) s1).
  { intros Hcut. apply (Hcut [] l s []); done. }
  intros done rest. revert done.
  induction rest as [|x rest IH]; intros done s1 evs1 Hl HI; simpl.
  - apply wp_ret. rewrite app_nil_r in Hl |- *. subst. by apply Hdone.
  - apply wp_bind. eapply wp_mono; [by eapply Hbody|].
    intros [[]| |] s2 evs2 Hx; simpl; [|done..].
    eapply wp_mono.
    + apply (IH (done ++ [x])); [by rewrite <-app_assoc|done].
    + intros o s3 evs3. by rewrite app_assoc.
Qed.

End wp.

Section wp_GROQOK.
Context {io : GroqIO}.

Lemma wp_GROQOK {A} x c (f : World → Status * A * World)
    (Q : Outcome A → World → list Event → Prop) w :
  (∀ status a w', f w = (status, a, w') →
     if decide (status = GROQ_SUCCESS) then Q (Ok a) w' [(c, status)]
     else Q (Throw (groq_error status x)) w' [(c, status)]) →
  wp (GROQOK x c f) Q w.
Proof.
  intros HQ. unfold wp, GROQOK. destruct (f w) as [[status a] w'] eqn:Hf.
  specialize (HQ _ _ _ eq_refl). simpl. by destruct (decide _).
Qed.
End wp_GROQOK.

(** ** TensorLayout: the size contract of transcoding *)

Section transcoding.
Context {io : GroqIO}.
Implicit Types (L : TensorLayout.t) (w : World).

Lemma fromHost_input_mismatch L input inputSize output outputSize w :
  inputSize ≠ TensorLayout.getHostSize L →
  TensorLayout.fromHost L input inputSize output outputSize w =
    refused (TensorLayout.input_size_mismatch (TensorLayout.getHostSize L) inputSize) w.
Proof.
  intros Hne. unfold TensorLayout.fromHost.
  by rewrite (proj2 (N.eqb_neq _ _) Hne).
Qed.

Lemma fromHost_output_mismatch L input inputSize output outputSize w :
  inputSize = TensorLayout.getHostSize L →
  outputSize ≠ TensorLayout.getIoSize L →
  TensorLayout.fromHost L input inputSize output outputSize w =
    refused (TensorLayout.output_size_mismatch (TensorLayout.getIoSize L) outputSize) w.
Proof.
  intros -> Hne. unfold TensorLayout.fromHost.
  by rewrite N.eqb_refl, (proj2 (N.eqb_neq _ _) Hne).
Qed.

Lemma fromHost_delegates L input output w :
  TensorLayout.fromHost L input (TensorLayout.getHostSize L)
      output (TensorLayout.getIoSize L) w =
    delegated
      "groq_tensor_layout_from_host(layout, input, inputSize, output, outputSize)"
      (c_tensor_layout_from_host (TensorLayout.layout L)
         input (TensorLayout.getHostSize L) output (TensorLayout.getIoSize L))
      (groq_tensor_layout_from_host (TensorLayout.layout L)
         input (TensorLayout.getHostSize L) output (TensorLayout.getIoSize L) w).
Proof. unfold TensorLayout.fromHost. by rewrite !N.eqb_refl. Qed.

Lemma toHost_mismatch L input inputSize output outputSize w :
  inputSize ≠ TensorLayout.getIoSize L ∨ outputSize ≠ TensorLayout.getHostSize L →
  TensorLayout.toHost L input inputSize output outputSize w =
    refused TensorLayout.size_mismatch w.
Proof.
  unfold TensorLayout.toHost. intros [Hne|Hne].
  - by rewrite (proj2 (N.eqb_neq _ _) Hne).
  - rewrite (proj2 (N.eqb_neq _ _) Hne). by destruct (_ =? _).
Qed.

Lemma toHost_delegates L input output w :
  TensorLayout.toHost L input (TensorLayout.getIoSize L)
      output (TensorLayout.getHostSize L) w =
    delegated
      "groq_tensor_layout_to_host(layout, input, inputSize, output, outputSize)"
      (c_tensor_layout_to_host (TensorLayout.layout L)
         input (TensorLayout.getIoSize L) output (TensorLayout.getHostSize L))
      (groq_tensor_layout_to_host (TensorLayout.layout L)
         input (TensorLayout.getIoSize L) output (TensorLayout.getHostSize L) w).
Proof. unfold TensorLayout.toHost. by rewrite !N.eqb_refl. Qed.




(** C1.  [fromHost] throws its size-mismatch exception unless
    [inputSize == hostSize] and [outputSize == ioSize], and [toHost] unless
    [inputSize == ioSize] and [outputSize == hostSize]; the throwing run
    makes no call and leaves the world as it was.  With the sizes of the
    layout the run is the one call of the conversion of groqio.h, on the
    arguments given, and it returns when that call reports
    [GROQ_SUCCESS]. *)
Theorem transcode_size_contract L input inputSize output outputSize w :
  (inputSize ≠ TensorLayout.getHostSize L ∨ outputSize ≠ TensorLayout.getIoSize L →
     ∃ e, e ∈ [TensorLayout.input_size_mismatch (TensorLayout.getHostSize L) inputSize;
               TensorLayout.output_size_mismatch (TensorLayout.getIoSize L) outputSize] ∧
          TensorLayout.fromHost L input inputSize output outputSize w = refused e w) ∧
  (inputSize = TensorLayout.getHostSize L → outputSize = TensorLayout.getIoSize L →
     let r := groq_tensor_layout_from_host (TensorLayout.layout L)
                input inputSize output outputSize w in
     let run := TensorLayout.fromHost L input inputSize output outputSize w in
     calls run = [(c_tensor_layout_from_host (TensorLayout.layout L)
                     input inputSize output outputSize, r.1)] ∧
     final run = r.2 ∧
     (r.1 = GROQ_SUCCESS → outcome run = Ok tt)) ∧
  (inputSize ≠ TensorLayout.getIoSize L ∨ outputSize ≠ TensorLayout.getHostSize L →
     TensorLayout.toHost L input inputSize output outputSize w =
       refused TensorLayout.size_mismatch w) ∧
  (inputSize = TensorLayout.getIoSize L → outputSize = TensorLayout.getHostSize L →
     let r := groq_tensor_layout_to_host (TensorLayout.layout L)
                input inputSize output outputSize w in
     let run := TensorLayout.toHost L input inputSize output outputSize w in
     calls run = [(c_tensor_layout_to_host (TensorLayout.layout L)
                     input inputSize output outputSize, r.1)] ∧
     final run = r.2 ∧
     (r.1 = GROQ_SUCCESS → outcome run = Ok tt)).
Proof.
  split_and!.
  - intros Hne.
    destruct (decide (inputSize = TensorLayout.getHostSize L)) as [Heq|Hin].
    + destruct Hne as [?|Hout]; [done|].
      eexists; split; [|by apply fromHost_output_mismatch]. repeat constructor.
    + eexists; split; [|by apply fromHost_input_mismatch]. repeat constructor.
  - intros -> ->. simpl. rewrite fromHost_delegates. unfold delegated; simpl.
    split_and!; [done..|]. intros ->. by rewrite decide_True.
  - apply toHost_mismatch.
  - intros -> ->. simpl. rewrite toHost_delegates. unfold delegated; simpl.
    split_and!; [done..|]. intros ->. by rewrite decide_True.
Qed.

End transcoding.

(** ** Parsing: IOP, Program, EntryPoint, IODescriptor, TensorLayout *)

Section parsing.
Context {io : GroqIO}.
Implicit Types (w : World).

Lemma indices_length n : length (indices n) = N.to_nat n.
Proof. unfold indices. by rewrite length_fmap, length_seq. Qed.

Lemma indices_lookup n (k : nat) i :
  indices n !! k = Some i ↔ i = N.of_nat k ∧ (k < N.to_nat n)%nat.
Proof.
  unfold indices. rewrite list_lookup_fmap, fmap_Some. split.
  - intros (j & [-> ?]%lookup_seq & ->). done.
  - intros [-> ?]. exists k. by rewrite lookup_seq.
Qed.

Lemma vsize_indices_fmap {A} (f : size_t → A) n : vsize (f <$> indices n) = n.
Proof. unfold vsize. rewrite length_fmap, indices_length. lia. Qed.

Lemma parsed_as_ret {A} (Shape : A → Prop) a w :
  Shape a → wp (mret a) (λ o _ evs, parsed_as Shape o evs) w.
Proof. intros. apply wp_ret. by split. Qed.

Lemma parsed_as_query {A} x c (r : Status * A) w :
  wp (GROQOK x c (query r)) (λ o _ evs, parsed_as (λ a, a = r.2) o evs) w.
Proof.
  apply wp_GROQOK. unfold query. intros status a w' [= <- <- <-].
  destruct (decide _) as [Hs|Hs]; simpl.
  - split; [|done]. by repeat constructor.
  - by exists [], c, r.1, x.
Qed.

Lemma parsed_as_bind {A B} (m : M World A) (k : A → M World B)
    (S1 : A → Prop) (S2 : B → Prop) w :
  wp m (λ o _ evs, parsed_as S1 o evs) w →
  (∀ a w1, S1 a → wp (k a) (λ o _ evs, parsed_as S2 o evs) w1) →
  wp (m ≫= k) (λ o _ evs, parsed_as S2 o evs) w.
Proof.
  intros Hm Hk. apply wp_bind. eapply wp_mono; [exact Hm|].
  intros [a| |] w1 evs1; simpl; [|done..]. intros [Hevs1 Ha].
  eapply wp_mono; [by apply Hk|].
  intros [b| |] w2 evs2; simpl; [| |done].
  - intros [??]. split; [|done]. by apply Forall_app.
  - intros (before & c & status & x & -> & ? & ? & ->).
    exists (evs1 ++ before), c, status, x.
    rewrite app_assoc. split_and!; [done| |done..]. by apply Forall_app.
Qed.

Lemma parsed_as_collect {A B} (body : A → M World B) (f : A → B) (l : list A) w :
  (∀ x w1, wp (body x) (λ o _ evs, parsed_as (λ y, y = f x) o evs) w1) →
  wp (collect body l) (λ o _ evs, parsed_as (λ ys, ys = f <$> l) o evs) w.
Proof.
  intros Hbody. revert w. induction l as [|x l IH]; intros w; simpl.
  - by apply parsed_as_ret.
  - eapply parsed_as_bind; [apply Hbody|]. intros y w1 ->.
    eapply parsed_as_bind; [apply IH|]. intros ys w2 ->.
    by apply parsed_as_ret.
Qed.

(** One step of a constructor: a checked query, then the rest on the value
    the query left. *)
Ltac parse_step :=
  first
    [ eapply parsed_as_bind; [apply parsed_as_query|]; simpl; intros ?? ->
    | apply parsed_as_ret ].

Lemma TensorLayout_new_parsed layout name iodSize w :
  wp (TensorLayout.new layout name iodSize)
     (λ o _ evs, parsed_as (λ l, l = declared_layout layout name iodSize) o evs) w.
Proof.
  unfold TensorLayout.new. do 3 parse_step.
  eapply parsed_as_bind.
  { apply parsed_as_collect with
      (f := λ nth, (groq_tensor_layout_get_nth_dimension layout nth).2).
    intros. apply parsed_as_query. }
  simpl. intros ?? ->. by parse_step.
Qed.

Lemma IODescriptor_new_parsed iod size w :
  wp (IODescriptor.new iod size)
     (λ o _ evs, parsed_as (λ d, d = declared_iodescriptor iod size) o evs) w.
Proof.
  unfold IODescriptor.new. parse_step.
  eapply parsed_as_bind.
  { apply parsed_as_collect with (f := declared_tensor iod size).
    intros nth ?. do 2 parse_step. apply TensorLayout_new_parsed. }
  simpl. intros ?? ->. by parse_step.
Qed.

Lemma EntryPoint_new_parsed entrypoint name w :
  wp (EntryPoint.new entrypoint name)
     (λ o _ evs, parsed_as (λ ep, ep = declared_entrypoint entrypoint name) o evs) w.
Proof.
  unfold EntryPoint.new. do 4 parse_step.
  eapply parsed_as_bind; [apply IODescriptor_new_parsed|]. simpl. intros ?? ->.
  eapply parsed_as_bind; [apply IODescriptor_new_parsed|]. simpl. intros ?? ->.
  by parse_step.
Qed.

Lemma Program_new_parsed program name w :
  wp (Program.new program name)
     (λ o _ evs, parsed_as (λ p, p = declared_program program name) o evs) w.
Proof.
  unfold Program.new. parse_step.
  eapply parsed_as_bind.
  { apply parsed_as_collect with (f := declared_nth_entrypoint program).
    intros nth ?. do 2 parse_step. apply EntryPoint_new_parsed. }
  simpl. intros ?? ->. by parse_step.
Qed.

Lemma IOP_new_parsed data w :
  wp (IOP.new data) (λ o _ evs, parsed_as (λ iop, iop = declared_iop data) o evs) w.
Proof.
  unfold IOP.new, IOP.initialize.
  eapply parsed_as_bind with
    (S1 := λ ip, ip = ((groq_iop_init data).2,
                       declared_nth_program (groq_iop_init data).2 <$>
                         indices (groq_iop_get_number_of_programs
                                    (groq_iop_init data).2).2)).
  - do 2 parse_step.
    eapply parsed_as_bind.
    { apply parsed_as_collect with
        (f := declared_nth_program (groq_iop_init data).2).
      intros nth ?. do 2 parse_step. apply Program_new_parsed. }
    simpl. intros ?? ->. by parse_step.
  - intros [iop programs] w1 [= -> ->]. by apply parsed_as_ret.
Qed.
Lemma parsed_as_failed {A} (Shape : A → Prop) (r : Run World A) :
  parsed_as Shape (outcome r) (calls r) →
  Exists failed (calls r) →
  ∃ before c status x,
    calls r = before ++ [(c, status)] ∧ Forall succeeded before ∧
    status ≠ GROQ_SUCCESS ∧ outcome r = Throw (groq_error status x).
Proof.
  unfold parsed_as. destruct (outcome r) as [a|e|]; [| |done].
  - intros [Hall _] Hex. apply Exists_exists in Hex as (ev & Hev & Hfailed).
    rewrite Forall_forall in Hall. by destruct Hfailed; apply Hall.
  - intros (before & c & status & x & ? & ? & ? & ->) _.
    by exists before, c, status, x.
Qed.

Lemma parsed_as_succeeded {A} (Shape : A → Prop) (r : Run World A) :
  parsed_as Shape (outcome r) (calls r) →
  Forall succeeded (calls r) →
  ∃ a, outcome r = Ok a ∧ Shape a.
Proof.
  unfold parsed_as. destruct (outcome r) as [a|e|]; [| |done].
  - intros [_ ?] _. by exists a.
  - intros (before & c & status & x & -> & _ & Hst & _) Hall.
    apply Forall_app in Hall as [_ Hlast]. by inversion_clear Hlast.
Qed.

Lemma parsed_as_returned {A} (Shape : A → Prop) (r : Run World A) a :
  parsed_as Shape (outcome r) (calls r) → outcome r = Ok a → Shape a.
Proof. intros Hp Ha. rewrite Ha in Hp. by destruct Hp. Qed.

(** C7.  When a call that parsing makes through [GROQOK] (on the root, a
    program, an entrypoint, a descriptor, a layout or a dimension) reports
    a status other than [GROQ_SUCCESS], the constructor of [IOP] throws:
    that call is the last one made, every call before it succeeded, the
    exception is the one of [GROQOK] for its status, and no [IOP] is
    returned. *)
Theorem parse_failure_aborts_construction data w :
  Exists failed (calls (IOP.new data w)) →
  ∃ before c status x,
    calls (IOP.new data w) = before ++ [(c, status)] ∧
    Forall succeeded before ∧
    status ≠ GROQ_SUCCESS ∧
    outcome (IOP.new data w) = Throw (groq_error status x).
Proof. apply parsed_as_failed with (Shape := λ iop, iop = declared_iop data), IOP_new_parsed. Qed.

(** C9.  In a descriptor that [IODescriptor::IODescriptor(iodescriptor,
    size)] returned, [getSize()] is [size], and [getIoSize()] of every
    tensor layout is that same value: the device size of the whole
    descriptor, not of the tensor. *)
Theorem layouts_report_descriptor_size iod size w d :
  outcome (IODescriptor.new iod size w) = Ok d →
  IODescriptor.getSize d = size ∧
  Forall (λ l, TensorLayout.getIoSize l = IODescriptor.getSize d)
         (IODescriptor.getTensorLayouts d).
Proof.
  intros Hd.
  pose proof (parsed_as_returned _ _ _ (IODescriptor_new_parsed iod size w) Hd) as ->.
  split; [done|]. simpl. by apply Forall_fmap, Forall_true.
Qed.

Lemma declared_in_declaration_order iod size :
  in_declaration_order iod (groq_iodescriptor_get_number_of_tensor_layouts iod).2
    (IODescriptor.layouts (declared_iodescriptor iod size)).
Proof.
  split; simpl; [apply vsize_indices_fmap|].
  intros k l. rewrite list_lookup_fmap, fmap_Some.
  by intros (nth & [-> _]%indices_lookup & ->).
Qed.

(** C6.  When every call of parsing succeeds, and the container reports
    [P] programs, [E] entrypoints for each of them and [n] tensor layouts
    for each of their descriptors, the constructor returns an [IOP] with
    [P] programs; its [i]-th program is the [i]-th of the container and
    has [E] entrypoints; the [j]-th of them is the [j]-th of that program,
    and the [k]-th of the [n] tensor layouts of each of its descriptors is
    the [k]-th tensor layout of that descriptor in the container. *)
Theorem parse_exposes_declared_tree data (P E n : size_t) w :
  let root := (groq_iop_init data).2 in
  let program i := (groq_get_nth_program root i).2 in
  let entrypoint i j := (groq_get_nth_entrypoint (program i) j).2 in
  let input i j := (groq_entrypoint_get_input_iodescriptor (entrypoint i j)).2 in
  let output i j := (groq_entrypoint_get_output_iodescriptor (entrypoint i j)).2 in
  Forall succeeded (calls (IOP.new data w)) →
  (groq_iop_get_number_of_programs root).2 = P →
  (∀ i, i < P → (groq_get_number_of_entrypoints (program i)).2 = E) →
  (∀ i j, i < P → j < E →
     (groq_iodescriptor_get_number_of_tensor_layouts (input i j)).2 = n ∧
     (groq_iodescriptor_get_number_of_tensor_layouts (output i j)).2 = n) →
  ∃ iop, outcome (IOP.new data w) = Ok iop ∧
    IOP.numPrograms iop = P ∧
    ∀ (i : nat) p, IOP.getPrograms iop !! i = Some p →
      Program.getName p = (groq_program_name root (N.of_nat i)).2 ∧
      Program.numEntrypoints p = E ∧
      ∀ (j : nat) ep, Program.getEntrypoints p !! j = Some ep →
        EntryPoint.getName ep =
          (groq_entrypoint_get_name (entrypoint (N.of_nat i) (N.of_nat j))).2 ∧
        in_declaration_order (input (N.of_nat i) (N.of_nat j)) n
          (IODescriptor.getTensorLayouts (EntryPoint.getInputIODescriptor ep)) ∧
        in_declaration_order (output (N.of_nat i) (N.of_nat j)) n
          (IODescriptor.getTensorLayouts (EntryPoint.getOutputIODescriptor ep)).
Proof.
  intros root program entrypoint input output Hall HP HE Hn.
  destruct (parsed_as_succeeded _ _ (IOP_new_parsed data w) Hall) as (iop & Hiop & ->).
  exists (declared_iop data). split; [done|]. unfold declared_iop; simpl.
  fold root. rewrite HP. split; [apply vsize_indices_fmap|].
  intros i p. unfold IOP.getPrograms; simpl.
  rewrite list_lookup_fmap, fmap_Some.
  intros (nth & [-> Hi]%indices_lookup & ->).
  assert (N.of_nat i < P) as HiP by lia.
  unfold declared_nth_program, Program.numEntrypoints; simpl.
  fold (program (N.of_nat i)). rewrite (HE _ HiP).
  split_and!; [done|apply vsize_indices_fmap|].
  intros j ep. unfold Program.getEntrypoints; simpl.
  rewrite list_lookup_fmap, fmap_Some.
  intros (nth & [-> Hj]%indices_lookup & ->).
  assert (N.of_nat j < E) as HjE by lia.
  destruct (Hn _ _ HiP HjE) as [Hin Hout].
  unfold declared_nth_entrypoint; simpl.
  fold (entrypoint (N.of_nat i) (N.of_nat j)).
  fold (input (N.of_nat i) (N.of_nat j)) (output (N.of_nat i) (N.of_nat j)).
  split_and!; [done| |].
  - rewrite <-Hin at 1. apply declared_in_declaration_order.
  - rewrite <-Hout at 1. apply declared_in_declaration_order.
Qed.
End parsing.

(** ** SimpleRunner: binding buffers *)

Section binding.
Context {io : GroqIO} {build : Build}.
Implicit Types (r : SimpleRunner.t).

Lemma at_Ok {A} (v : list A) i x : v !! N.to_nat i = Some x → at_ v i = Ok x.
Proof. unfold at_. by intros ->. Qed.

Lemma at_out_of_range {A} (v : list A) i : vsize v ≤ i → at_ v i = Throw out_of_range.
Proof.
  unfold at_, vsize. intros Hle. rewrite lookup_ge_None_2; [done|lia].
Qed.

Lemma at_put_Ok {A} (v : list A) i x :
  (N.to_nat i < length v)%nat → at_put v i x = Ok (<[N.to_nat i := x]> v).
Proof.
  unfold at_put. intros Hlt. by destruct (lookup_lt_is_Some_2 v _ Hlt) as [y ->].
Qed.

Lemma session_input_layout r i layout :
  session r → input_layout r i = Some layout →
  ∃ ins, SimpleRunner.inputTensorLayouts r = Ok ins ∧
         ins !! N.to_nat i = Some layout ∧
         (N.to_nat i < length (SimpleRunner.inputBuffers r))%nat ∧
         (N.to_nat i < length (SimpleRunner.inputSizes r))%nat.
Proof.
  intros (ins & outs & Hins & _ & _ & _ & Hb & Hs & _) Hl.
  unfold input_layout in Hl. rewrite Hins in Hl. exists ins.
  apply lookup_lt_Some in Hl as Hlt. rewrite Hb, Hs. done.
Qed.

Lemma session_output_layout r i layout :
  session r → output_layout r i = Some layout →
  ∃ outs, SimpleRunner.outputTensorLayouts r = Ok outs ∧
          outs !! N.to_nat i = Some layout ∧
          (N.to_nat i < length (SimpleRunner.outputBuffers r))%nat ∧
          (N.to_nat i < length (SimpleRunner.outputSizes r))%nat.
Proof.
  intros (ins & outs & _ & Houts & _ & _ & _ & _ & Hb & Hs) Hl.
  unfold output_layout in Hl. rewrite Houts in Hl. exists outs.
  apply lookup_lt_Some in Hl as Hlt. rewrite Hb, Hs. done.
Qed.

(** Unfolds a bind call on a session whose layouts are known. *)
Ltac run_bind_call :=
  unfold SimpleRunner.addInputBuffer, SimpleRunner.addOutputBuffer, assert;
  unfold_monad; simpl.

Lemma addInputBuffer_out_of_range r buffer size index :
  session r → SimpleRunner.numInputs r ≤ index →
  SimpleRunner.addInputBuffer buffer size index r = refused out_of_range r.
Proof.
  intros (ins & outs & Hins & _ & Hn & _) Hle. rewrite Hn in Hle.
  run_bind_call. rewrite Hins; simpl. by rewrite at_out_of_range.
Qed.

Lemma addInputBuffer_bad_size r buffer size index layout :
  session r → input_layout r index = Some layout →
  size ≠ TensorLayout.getHostSize layout →
  SimpleRunner.addInputBuffer buffer size index r =
    refused (SimpleRunner.bad_data_size (TensorLayout.getHostSize layout) size) r.
Proof.
  intros Hr Hl Hne. destruct (session_input_layout _ _ _ Hr Hl) as (ins & Hins & Hi & _).
  run_bind_call. rewrite Hins; simpl. rewrite (at_Ok _ _ _ Hi); simpl.
  by rewrite (proj2 (N.eqb_neq _ _) Hne).
Qed.

Lemma addInputBuffer_null r size index layout :
  session r → input_layout r index = Some layout →
  size = TensorLayout.getHostSize layout → NDEBUG = false →
  SimpleRunner.addInputBuffer nullptr size index r = aborted r.
Proof.
  intros Hr Hl -> Hdebug. destruct (session_input_layout _ _ _ Hr Hl) as (ins & Hins & Hi & _).
  run_bind_call. rewrite Hins; simpl. rewrite (at_Ok _ _ _ Hi); simpl.
  by rewrite N.eqb_refl, Hdebug.
Qed.

Lemma addInputBuffer_binds r buffer size index layout :
  session r → input_layout r index = Some layout →
  size = TensorLayout.getHostSize layout →
  buffer ≠ nullptr ∨ NDEBUG = true →
  SimpleRunner.addInputBuffer buffer size index r =
    returned (with_input buffer size index r).
Proof.
  intros Hr Hl -> Hassert.
  destruct (session_input_layout _ _ _ Hr Hl) as (ins & Hins & Hi & Hb & Hs).
  run_bind_call. rewrite Hins; simpl. rewrite (at_Ok _ _ _ Hi); simpl.
  rewrite N.eqb_refl; simpl.
  assert (NDEBUG = true ∨ negb (buffer =? nullptr) = true) as Hok.
  { destruct Hassert as [Hnull| ->]; [right|by left].
    by rewrite (proj2 (N.eqb_neq _ _) Hnull). }
  destruct NDEBUG, (negb (buffer =? nullptr)); simpl;
    try (by destruct Hok);
    rewrite (at_put_Ok _ _ _ Hb); simpl; by rewrite (at_put_Ok _ _ _ Hs).
Qed.

Lemma addOutputBuffer_out_of_range r buffer size index :
  session r → SimpleRunner.numOutputs r ≤ index →
  SimpleRunner.addOutputBuffer buffer size index r = refused out_of_range r.
Proof.
  intros (ins & outs & _ & Houts & _ & Hn & _) Hle. rewrite Hn in Hle.
  run_bind_call. rewrite Houts; simpl. by rewrite at_out_of_range.
Qed.

Lemma addOutputBuffer_bad_size r buffer size index layout :
  session r → output_layout r index = Some layout →
  size ≠ TensorLayout.getHostSize layout →
  SimpleRunner.addOutputBuffer buffer size index r =
    refused (SimpleRunner.bad_data_size (TensorLayout.getHostSize layout) size) r.
Proof.
  intros Hr Hl Hne. destruct (session_output_layout _ _ _ Hr Hl) as (outs & Houts & Hi & _).
  run_bind_call. rewrite Houts; simpl. rewrite (at_Ok _ _ _ Hi); simpl.
  by rewrite (proj2 (N.eqb_neq _ _) Hne).
Qed.

Lemma addOutputBuffer_null r size index layout :
  session r → output_layout r index = Some layout →
  size = TensorLayout.getHostSize layout → NDEBUG = false →
  SimpleRunner.addOutputBuffer nullptr size index r = aborted r.
Proof.
  intros Hr Hl -> Hdebug. destruct (session_output_layout _ _ _ Hr Hl) as (outs & Houts & Hi & _).
  run_bind_call. rewrite Houts; simpl. rewrite (at_Ok _ _ _ Hi); simpl.
  by rewrite N.eqb_refl, Hdebug.
Qed.

Lemma addOutputBuffer_binds r buffer size index layout :
  session r → output_layout r index = Some layout →
  size = TensorLayout.getHostSize layout →
  buffer ≠ nullptr ∨ NDEBUG = true →
  SimpleRunner.addOutputBuffer buffer size index r =
    returned (with_output buffer size index r).
Proof.
  intros Hr Hl -> Hassert.
  destruct (session_output_layout _ _ _ Hr Hl) as (outs & Houts & Hi & Hb & Hs).
  run_bind_call. rewrite Houts; simpl. rewrite (at_Ok _ _ _ Hi); simpl.
  rewrite N.eqb_refl; simpl.
  assert (NDEBUG = true ∨ negb (buffer =? nullptr) = true) as Hok.
  { destruct Hassert as [Hnull| ->]; [right|by left].
    by rewrite (proj2 (N.eqb_neq _ _) Hnull). }
  destruct NDEBUG, (negb (buffer =? nullptr)); simpl;
    try (by destruct Hok);
    rewrite (at_put_Ok _ _ _ Hb); simpl; by rewrite (at_put_Ok _ _ _ Hs).
Qed.
Lemma bind_returned {S A B} (m : M S A) (k : A → M S B) s b :
  outcome ((m ≫= k) s) = Ok b →
  ∃ a, outcome (m s) = Ok a ∧ outcome (k a (final (m s))) = Ok b.
Proof.
  unfold_monad. simpl. destruct (outcome (m s)) as [a| |]; [|done..].
  intros Hb. by exists a.
Qed.

(** The constructor leaves a session in which no tensor is bound. *)
Lemma new_session driver iop programIndex entrypointIndex w r :
  outcome (SimpleRunner.new driver iop programIndex entrypointIndex w) = Ok r →
  session r ∧
  (∀ i, i < SimpleRunner.numInputs r → unbound_input r i) ∧
  SimpleRunner.outputBuffers r =
    replicate (N.to_nat (SimpleRunner.numOutputs r)) nullptr.
Proof.
  unfold SimpleRunner.new. intros Hr.
  apply bind_returned in Hr as (ins & Hins & Hr).
  apply bind_returned in Hr as (outs & Houts & Hr).
  apply bind_returned in Hr as (inputIoba & _ & Hr).
  apply bind_returned in Hr as (outputIoba & _ & Hr).
  apply bind_returned in Hr as ([] & _ & Hr).
  apply bind_returned in Hr as ([] & _ & Hr).
  injection Hr as <-. simpl in Hins, Houts.
  split_and!; [|intros i Hi; split; simpl|done].
  - unfold session. exists ins, outs. unfold vsize; simpl.
    rewrite !length_replicate, !Nat2N.id. by split_and!.
  - apply lookup_replicate_2. simpl in Hi. unfold vsize in *. lia.
  - apply lookup_replicate_2. simpl in Hi. unfold vsize in *. lia.
Qed.

Lemma with_input_session r buffer size index :
  session r → session (with_input buffer size index r).
Proof.
  intros (ins & outs & ?). unfold session. exists ins, outs. simpl.
  by rewrite !length_insert.
Qed.

Lemma with_output_session r buffer size index :
  session r → session (with_output buffer size index r).
Proof.
  intros (ins & outs & ?). unfold session. exists ins, outs. simpl.
  by rewrite !length_insert.
Qed.

(** Binding another tensor leaves a slot as it was. *)
Lemma with_input_unbound r buffer size index i :
  i ≠ index → unbound_input r i → unbound_input (with_input buffer size index r) i.
Proof.
  intros Hne [Hb Hs]. split; simpl; rewrite list_lookup_insert_ne; auto; lia.
Qed.

Lemma with_output_unbound r buffer size index i :
  unbound_input r i → unbound_input (with_output buffer size index r) i.
Proof. done. Qed.

Lemma with_input_lookup r buffer size index :
  (N.to_nat index < length (SimpleRunner.inputBuffers r))%nat →
  (N.to_nat index < length (SimpleRunner.inputSizes r))%nat →
  SimpleRunner.inputBuffers (with_input buffer size index r) !! N.to_nat index
    = Some buffer ∧
  SimpleRunner.inputSizes (with_input buffer size index r) !! N.to_nat index
    = Some size.
Proof. intros. simpl. by rewrite !list_lookup_insert_eq. Qed.

Lemma with_output_lookup r buffer size index :
  (N.to_nat index < length (SimpleRunner.outputBuffers r))%nat →
  (N.to_nat index < length (SimpleRunner.outputSizes r))%nat →
  SimpleRunner.outputBuffers (with_output buffer size index r) !! N.to_nat index
    = Some buffer ∧
  SimpleRunner.outputSizes (with_output buffer size index r) !! N.to_nat index
    = Some size.
Proof. intros. simpl. by rewrite !list_lookup_insert_eq. Qed.

(** C5, as the code has it.  On a session, for [addInputBuffer(buffer,
    size, index)] and for [addOutputBuffer(buffer, size, index)]: with
    [index] not below the number of tensors of the descriptor the call
    throws [std::out_of_range]; with [index] in range and [size] other than
    [hostSize] of that tensor it throws the bad-data-size exception; both
    leave the session as it was.  With [index] in range, [size] equal to
    [hostSize], and [buffer] not null (or the assertions compiled out) the
    call returns and the session differs only in slot [index], which holds
    [buffer] and [size]. *)
Theorem bind_contract r buffer size index :
  session r →
  (SimpleRunner.numInputs r ≤ index →
     SimpleRunner.addInputBuffer buffer size index r = refused out_of_range r) ∧
  (∀ layout, input_layout r index = Some layout →
     (size ≠ TensorLayout.getHostSize layout →
        SimpleRunner.addInputBuffer buffer size index r =
          refused (SimpleRunner.bad_data_size (TensorLayout.getHostSize layout) size) r) ∧
     (size = TensorLayout.getHostSize layout → buffer ≠ nullptr ∨ NDEBUG = true →
        let r' := with_input buffer size index r in
        SimpleRunner.addInputBuffer buffer size index r = returned r' ∧
        SimpleRunner.inputBuffers r' !! N.to_nat index = Some buffer ∧
        SimpleRunner.inputSizes r' !! N.to_nat index = Some size)) ∧
  (SimpleRunner.numOutputs r ≤ index →
     SimpleRunner.addOutputBuffer buffer size index r = refused out_of_range r) ∧
  (∀ layout, output_layout r index = Some layout →
     (size ≠ TensorLayout.getHostSize layout →
        SimpleRunner.addOutputBuffer buffer size index r =
          refused (SimpleRunner.bad_data_size (TensorLayout.getHostSize layout) size) r) ∧
     (size = TensorLayout.getHostSize layout → buffer ≠ nullptr ∨ NDEBUG = true →
        let r' := with_output buffer size index r in
        SimpleRunner.addOutputBuffer buffer size index r = returned r' ∧
        SimpleRunner.outputBuffers r' !! N.to_nat index = Some buffer ∧
        SimpleRunner.outputSizes r' !! N.to_nat index = Some size)).
Proof.
  intros Hr. split_and!.
  - by apply addInputBuffer_out_of_range.
  - intros layout Hl. split; [by apply addInputBuffer_bad_size|].
    intros Hsize Hassert r'. split; [by eapply addInputBuffer_binds|].
    destruct (session_input_layout _ _ _ Hr Hl) as (ins & _ & _ & Hb & Hs).
    by apply with_input_lookup.
  - by apply addOutputBuffer_out_of_range.
  - intros layout Hl. split; [by apply addOutputBuffer_bad_size|].
    intros Hsize Hassert r'. split; [by eapply addOutputBuffer_binds|].
    destruct (session_output_layout _ _ _ Hr Hl) as (outs & _ & _ & Hb & Hs).
    by apply with_output_lookup.
Qed.
End binding.

(** ** SimpleRunner: invoke *)

Section invoke.
Context {io : GroqIO} {build : Build}.
Implicit Types (r : SimpleRunner.t) (w : World).

(** The run of a sequence, from the runs of its parts. *)
Lemma bind_run_Ok {S A B} (m : M S A) (k : A → M S B) s a :
  outcome (m s) = Ok a →
  (m ≫= k) s = {| outcome := outcome (k a (final (m s)));
                  final := final (k a (final (m s)));
                  calls := calls (m s) ++ calls (k a (final (m s))) |}.
Proof. unfold_monad. simpl. by intros ->. Qed.

Lemma bind_run_failed {S A B} (m : M S A) (k : A → M S B) s :
  (∀ a, outcome (m s) ≠ Ok a) →
  calls ((m ≫= k) s) = calls (m s) ∧ final ((m ≫= k) s) = final (m s) ∧
  ∀ b, outcome ((m ≫= k) s) ≠ Ok b.
Proof.
  unfold_monad. simpl. intros Hne.
  destruct (outcome (m s)) as [a| |]; [by destruct (Hne a)|done..].
Qed.

Lemma bind_assoc {S A B C} (m : M S A) (k : A → M S B) (k' : B → M S C) s :
  ((m ≫= k) ≫= k') s = (m ≫= λ a, k a ≫= k') s.
Proof.
  unfold_monad. simpl. destruct (outcome (m s)) as [a| |]; simpl; [|done..].
  destruct (outcome (k a _)); simpl; [|done..]. by rewrite app_assoc.
Qed.

Lemma bind_ext {S A B} (m : M S A) (k k' : A → M S B) s :
  (∀ a s1, k a s1 = k' a s1) → (m ≫= k) s = (m ≫= k') s.
Proof.
  intros Hk. unfold_monad. simpl. destruct (outcome (m s)); [|done..].
  by rewrite Hk.
Qed.

(** [invoke] is its first part, then the execute call and the wait, then
    its second loop. *)
Lemma invoke_phases r device w :
  SimpleRunner.invoke r device w =
    (before_execute r ≫= λ _,
       SimpleRunner.invoke_execute r device ≫= λ _, after_execute r) w.
Proof.
  unfold SimpleRunner.invoke, before_execute, after_execute.
  rewrite bind_assoc. apply bind_ext. intros _ w1.
  rewrite bind_assoc. by apply bind_ext.
Qed.

Lemma input_call_phase r js ev : input_call r js ev → input_phase ev.
Proof.
  unfold input_phase. intros [->|(j & _ & layout & input & n & output & _ & _ & _ & ->)];
    done.
Qed.

Lemma input_call_mono r js js' ev :
  js ⊆ js' → input_call r js ev → input_call r js' ev.
Proof. intros Hsub [?|(j & Hj & ?)]; [by left|right]. exists j. auto. Qed.

Lemma transcodes_app evs evs' : transcodes (evs ++ evs') = (transcodes evs + transcodes evs')%nat.
Proof. unfold transcodes. by rewrite List.filter_app, length_app. Qed.

Lemma executions_app evs evs' : executions (evs ++ evs') = (executions evs + executions evs')%nat.
Proof. unfold executions. by rewrite List.filter_app, length_app. Qed.

(** Closes a [Forall] over an explicit list from the hypotheses. *)
Ltac each_call :=
  simpl;
  repeat first
    [ apply List.Forall_nil
    | apply List.Forall_cons; [first [done | by eauto]|] ].

Lemma invoke_input_round r i w :
  wp (SimpleRunner.invoke_input r i) (λ o _ evs, input_round r i o evs) w.
Proof.
  unfold SimpleRunner.invoke_input, input_round.
  apply wp_bind, wp_lift.
  destruct (SimpleRunner.inputTensorLayouts r) as [layouts| |] eqn:Hlayouts;
    [|done..].
  apply wp_bind, wp_lift. unfold at_ at 1.
  destruct (layouts !! N.to_nat i) as [layout|] eqn:Hlayout; [|done].
  apply wp_bind, wp_lift. unfold at_ at 1.
  destruct (SimpleRunner.inputBuffers r !! N.to_nat i) as [input|] eqn:Hinput; [|done].
  apply wp_bind, wp_lift. unfold at_ at 1.
  destruct (SimpleRunner.inputSizes r !! N.to_nat i) as [inputSize|] eqn:Hsize; [|done].
  apply wp_bind, wp_GROQOK. intros status output w' _.
  assert (input_call r [i] (c_get_data_handle (SimpleRunner.inputIoba r) 0, status))
    as Hhandle by by left.
  destruct (decide (status = GROQ_SUCCESS)) as [->|Hfailed]; simpl;
    [|split; [each_call|done]].
  apply wp_bind, wp_assert; [intros _|split; [each_call|done]].
  apply wp_bind, wp_assert; [intros _|split; [each_call|done]].
  unfold wp. simpl.
  destruct (decide (inputSize = TensorLayout.getHostSize layout)) as [->|Hin];
    [|rewrite fromHost_input_mismatch by done; split; [each_call|done]].
  destruct (decide (SimpleRunner.tspInputSize r = TensorLayout.getIoSize layout))
    as [Hio|Hout];
    [|rewrite fromHost_output_mismatch by done; split; [each_call|done]].
  rewrite Hio, fromHost_delegates. unfold delegated. simpl.
  assert (∀ st, input_call r [i]
            (c_tensor_layout_from_host (TensorLayout.layout layout) input
               (TensorLayout.getHostSize layout) output
               (TensorLayout.getIoSize layout), st)) as Htranscode.
  { intros st. right. exists i. split; [by left|].
    exists layout, input, (TensorLayout.getHostSize layout), output.
    unfold input_layout. by rewrite Hlayouts, Hio. }
  split; [each_call|].
  destruct (decide _) as [Hst|]; [|done]. intros _. split; [|done].
  each_call.
Qed.
Lemma invoke_output_round r i w :
  wp (SimpleRunner.invoke_output r i) (λ _ _ evs, Forall output_phase evs) w.
Proof.
  unfold SimpleRunner.invoke_output.
  apply wp_bind, wp_lift.
  destruct (SimpleRunner.outputTensorLayouts r) as [layouts| |]; [|done..].
  apply wp_bind, wp_lift. destruct (at_ layouts i) as [layout| |]; [|done..].
  apply wp_bind, wp_lift.
  destruct (at_ (SimpleRunner.outputBuffers r) i) as [output| |]; [|done..].
  apply wp_bind, wp_lift.
  destruct (at_ (SimpleRunner.outputSizes r) i) as [outputSize| |]; [|done..].
  apply wp_bind, wp_GROQOK. intros status input w' _.
  destruct (decide (status = GROQ_SUCCESS)) as [->|Hfailed]; [|each_call].
  apply wp_bind, wp_assert; [intros _|intros _ _; each_call].
  apply wp_bind, wp_assert; [intros _|intros _ _; each_call].
  unfold wp, TensorLayout.toHost. simpl.
  repeat (destruct (negb _); [each_call|]). each_call.
Qed.

Lemma after_execute_calls r w : Forall output_phase (calls (after_execute r w)).
Proof.
  apply (wp_foreach _ _ (λ _ _ evs, Forall output_phase evs)
           (λ _ _ evs, Forall output_phase evs)); [done| |done].
  intros done i rest w1 evs1 _ Hevs1.
  eapply wp_mono; [apply invoke_output_round|].
  intros o w2 evs2 Hevs2. destruct o as [[]| |]; by apply Forall_app.
Qed.

Lemma indices_middle n (done rest : list size_t) i :
  indices n = done ++ i :: rest →
  done = indices i ∧ i < n.
Proof.
  intros Hn.
  assert (indices n !! length done = Some i) as Hi.
  { rewrite Hn. by apply list_lookup_middle. }
  apply indices_lookup in Hi as [-> Hlt]. split; [|lia].
  apply (f_equal (take (length done))) in Hn.
  rewrite take_app_length in Hn. etrans; [symmetry; exact Hn|].
  unfold indices. rewrite <-fmap_take, take_seq, Nat2N.id. f_equal. f_equal. lia.
Qed.

Lemma indices_snoc (i : size_t) : indices i ++ [i] = indices (N.succ i).
Proof.
  unfold indices. rewrite N2Nat.inj_succ, seq_S, fmap_app. simpl.
  by rewrite N2Nat.id.
Qed.


(** The first loop: its calls ask for the data handle or convert one of
    the input tensors; when it returns they all succeeded and every input
    tensor was converted. *)
Lemma before_execute_calls r w :
  Forall (input_call r (indices (SimpleRunner.numInputs r)))
         (calls (before_execute r w)) ∧
  (outcome (before_execute r w) = Ok tt →
     Forall succeeded (calls (before_execute r w)) ∧
     transcodes (calls (before_execute r w))
       = N.to_nat (SimpleRunner.numInputs r)).
Proof.
  set (n := SimpleRunner.numInputs r).
  change (wp (before_execute r)
           (λ o _ evs, Forall (input_call r (indices n)) evs ∧
                       (o = Ok tt → Forall succeeded evs ∧ transcodes evs = N.to_nat n))
           w).
  unfold before_execute.
  apply wp_bind, wp_assert; [intros _|done].
  apply wp_bind, wp_assert; [intros _|done]. simpl. fold n.
  apply (wp_foreach _ _
           (λ done _ evs, Forall (input_call r (indices n)) evs ∧
                          Forall succeeded evs ∧ transcodes evs = length done)).
  - done.
  - intros done i rest w1 evs1 [-> Hi]%indices_middle (Hcalls & Hok & Hcount).
    eapply wp_mono; [apply invoke_input_round|].
    intros o w2 evs2 [Hround Hreturned].
    assert (Forall (input_call r (indices n)) (evs1 ++ evs2)) as Hall.
    { apply Forall_app. split; [done|].
      eapply Forall_impl; [exact Hround|]. intros ev.
      apply input_call_mono. intros j ->%list_elem_of_singleton.
      apply list_elem_of_lookup. exists (N.to_nat i).
      apply indices_lookup. split; lia. }
    destruct o as [[]| |]; [|done..].
    destruct (Hreturned eq_refl) as [Hok2 Hcount2].
    split_and!; [done|by apply Forall_app|].
    rewrite transcodes_app, length_app, Hcount, Hcount2. done.
  - intros w' evs (Hcalls & Hok & Hcount). split; [done|]. intros _.
    by rewrite Hcount, indices_length.
Qed.

Lemma invoke_execute_executed r device w :
  executed r device (outcome (SimpleRunner.invoke_execute r device w))
                    (calls (SimpleRunner.invoke_execute r device w)).
Proof.
  unfold SimpleRunner.invoke_execute, GROQOK, effect. unfold_monad. simpl.
  destruct (groq_invoke _ _ _ _ _ w) as [[status completion] w1]; simpl.
  destruct (decide (status = GROQ_SUCCESS)) as [->|Hstatus]; simpl;
    [|by apply execute_failed].
  destruct (decide _) as [->|Hstatus]; simpl;
    [apply completed|by apply wait_failed].
Qed.
(** The run of [invoke], from the runs of its three parts. *)
Lemma invoke_run r device w :
  (outcome (before_execute r w) ≠ Ok tt ∧
   calls (SimpleRunner.invoke r device w) = calls (before_execute r w) ∧
   outcome (SimpleRunner.invoke r device w) ≠ Ok tt) ∨
  (outcome (before_execute r w) = Ok tt ∧
   ∃ o exec outs,
     executed r device o exec ∧
     calls (SimpleRunner.invoke r device w) = calls (before_execute r w) ++ exec ++ outs ∧
     Forall output_phase outs ∧
     (o ≠ Ok tt → outs = [] ∧ outcome (SimpleRunner.invoke r device w) = o)).
Proof.
  rewrite invoke_phases.
  destruct (outcome (before_execute r w)) as [[]| |] eqn:Hbefore.
  - right. split; [done|]. rewrite (bind_run_Ok _ _ _ _ Hbefore). simpl.
    set (w1 := final (before_execute r w)).
    pose proof (invoke_execute_executed r device w1) as Hexec.
    exists (outcome (SimpleRunner.invoke_execute r device w1)),
           (calls (SimpleRunner.invoke_execute r device w1)).
    destruct (outcome (SimpleRunner.invoke_execute r device w1)) as [[]| |] eqn:Ho.
    + rewrite (bind_run_Ok _ _ _ _ Ho). simpl.
      eexists. split_and!; [done..|apply after_execute_calls|done].
    + exists []. unfold_monad. simpl. rewrite Ho. simpl.
      by rewrite app_nil_r.
    + inversion Hexec.
  - left. unfold_monad. simpl. rewrite Hbefore. done.
  - left. unfold_monad. simpl. rewrite Hbefore. done.
Qed.

Lemma input_phase_executions evs : Forall input_phase evs → executions evs = 0%nat.
Proof.
  unfold executions. induction 1 as [|[c st] evs Hc _ IH]; [done|]. simpl.
  unfold input_phase in Hc. by destruct c.
Qed.

Lemma output_phase_executions evs : Forall output_phase evs → executions evs = 0%nat.
Proof.
  unfold executions. induction 1 as [|[c st] evs Hc _ IH]; [done|]. simpl.
  unfold output_phase in Hc. by destruct c.
Qed.

Lemma executed_executions r device o exec :
  executed r device o exec → executions exec = 1%nat ∧ Forall execute_phase exec.
Proof. destruct 1; split; by repeat constructor. Qed.

Lemma before_execute_phase r w : Forall input_phase (calls (before_execute r w)).
Proof.
  destruct (before_execute_calls r w) as [Hcalls _].
  eapply Forall_impl; [exact Hcalls|]. apply input_call_phase.
Qed.

(** C2.  The calls of one [invoke], in order, are: calls of the first loop
    (data-handle queries and [fromHost] conversions); then the execute
    call and the wait; then calls of the second loop (data-handle queries
    and [toHost] conversions).  When the execute call is made, every call
    of the first loop has succeeded and every input tensor has been
    converted; when a call of the second loop is made, the execute call
    and the wait have both reported [GROQ_SUCCESS]. *)
Theorem invoke_phases_in_order r device w :
  ∃ ins exec outs,
    calls (SimpleRunner.invoke r device w) = ins ++ exec ++ outs ∧
    Forall input_phase ins ∧
    Forall execute_phase exec ∧
    Forall output_phase outs ∧
    (exec ≠ [] →
       Forall succeeded ins ∧
       transcodes ins = N.to_nat (SimpleRunner.numInputs r)) ∧
    (outs ≠ [] →
       ∃ completion,
         exec = [(the_execute r device, GROQ_SUCCESS);
                 (c_wait_for_completion completion 30000, GROQ_SUCCESS)]).
Proof.
  destruct (invoke_run r device w)
    as [(_ & Hcalls & _)|(Hbefore & o & exec & outs & Hexec & Hcalls & Houts & Hfailed)].
  - exists (calls (before_execute r w)), [], [].
    rewrite app_nil_r. split_and!; [done|apply before_execute_phase|done..].
  - exists (calls (before_execute r w)), exec, outs.
    split_and!; [done|apply before_execute_phase| |done| |].
    + by eapply executed_executions.
    + intros _. by apply before_execute_calls.
    + intros Hne. destruct Hexec; [by destruct Hfailed..|]. by eexists.
Qed.

(** C10, as the code has it.  An [invoke] whose assertions or first loop
    fail makes no execute call.  Every other [invoke] makes exactly one:
    the call [groq_invoke(device, inputIoba, 0, outputIoba, 0)], right
    after the first loop; when it reports [GROQ_SUCCESS] it is followed by
    one wait, whose timeout is the constant 30000; when either reports
    another status, [invoke] throws the exception of [GROQOK] for that
    status and the failed call is the last call made, so no output is
    converted. *)
Theorem invoke_executes_once r device w :
  (outcome (before_execute r w) ≠ Ok tt →
     calls (SimpleRunner.invoke r device w) = calls (before_execute r w) ∧
     executions (calls (SimpleRunner.invoke r device w)) = 0%nat ∧
     outcome (SimpleRunner.invoke r device w) ≠ Ok tt) ∧
  (outcome (before_execute r w) = Ok tt →
     ∃ o exec outs,
       executed r device o exec ∧
       calls (SimpleRunner.invoke r device w) = calls (before_execute r w) ++ exec ++ outs ∧
       executions (calls (SimpleRunner.invoke r device w)) = 1%nat ∧
       Forall output_phase outs ∧
       (o ≠ Ok tt → outs = [] ∧ outcome (SimpleRunner.invoke r device w) = o)).
Proof.
  pose proof (input_phase_executions _ (before_execute_phase r w)) as Hnone.
  destruct (invoke_run r device w)
    as [(Hbefore & Hcalls & Hrun)|(Hbefore & o & exec & outs & Hexec & Hcalls & Houts & Hfailed)];
    (split; [|intros Hok]); try done.
  - intros _. by rewrite Hcalls.
  - exists o, exec, outs. split_and!; [done..| |done|done].
    rewrite Hcalls, !executions_app, Hnone.
    rewrite (output_phase_executions _ Houts).
    by destruct (executed_executions _ _ _ _ Hexec) as [-> _].
Qed.

Lemma indices_elem_of i n : i ∈ indices n ↔ i < n.
Proof.
  rewrite list_elem_of_lookup. split.
  - intros (k & [-> ?]%indices_lookup). lia.
  - intros Hlt. exists (N.to_nat i). apply indices_lookup. split; lia.
Qed.

End invoke.

(** ** The small implementation: the properties at work *)

Section stub.
Import Stub.

Example stub_parses :
  outcome (IOP.new (io:=Stub.io) container w0) = Ok tree.
Proof. reflexivity. Qed.

Example stub_constructs b :
  SimpleRunner.new (io:=Stub.io) (build:=b) 7 tree 0 0 w0 =
    {| outcome := Ok fresh; final := w0;
       calls := [(c_allocate_inputs_iobuffer_array 7 1 1, 0%Z);
                 (c_allocate_outputs_iobuffer_array 7 1 1, 0%Z)] |}.
Proof. by destruct b as [[]]. Qed.

Example stub_binds :
  final (SimpleRunner.addOutputBuffer (build:=debug) 700 1 1
    (final (SimpleRunner.addOutputBuffer (build:=debug) 600 4 0
      (final (SimpleRunner.addInputBuffer (build:=debug) 100 2 0
        (final (SimpleRunner.addInputBuffer (build:=debug) 200 3 1 fresh)))))))
  = bound.
Proof. reflexivity. Qed.

Lemma stub_fresh_session : session fresh.
Proof.
  apply (new_session (io:=Stub.io) (build:=debug) 7 tree 0 0 w0).
  by rewrite stub_constructs.
Qed.

Lemma stub_bound_session : session bound.
Proof.
  change bound with (with_output 700 1 1 (with_output 600 4 0
                       (with_input 100 2 0 (with_input 200 3 1 fresh)))).
  repeat first [apply with_output_session | apply with_input_session].
  apply stub_fresh_session.
Qed.

(** *** Transcoding *)

Lemma transcode_size_contract_witness :
  TensorLayout.toHost (io:=Stub.io) tensorA 100 2 4000 8 w0
    = refused TensorLayout.size_mismatch w0 ∧
  calls (TensorLayout.fromHost (io:=Stub.io) tensorA 100 2 4000 8 w0)
    = [(c_tensor_layout_from_host 300 100 2 4000 8, 0%Z)] ∧
  outcome (TensorLayout.fromHost (io:=Stub.io) tensorA 100 2 4000 8 w0) = Ok tt.
Proof.
  destruct (transcode_size_contract (io:=Stub.io) tensorA 100 2 4000 8 w0)
    as (_ & Hfrom & Hto & _).
  split; [apply Hto; by left|].
  destruct Hfrom as (Hcalls & _ & Hreturns); [reflexivity..|].
  split; [exact Hcalls|]. by apply Hreturns.
Defined.

(** C4 does not hold of [toHost]: called on tensor [C] with [inputSize] 5
    where [ioSize] is 8, it throws [Size mismatch], a message that names
    neither size.  At a wrong size [fromHost], [addInputBuffer] and
    [addOutputBuffer] name the expected and the actual size. *)
Theorem toHost_mismatch_names_no_size :
  TensorLayout.toHost (io:=Stub.io) tensorC 4100 5 600 4 w0
    = refused (runtime_error "Size mismatch") w0 ∧
  TensorLayout.fromHost (io:=Stub.io) tensorC 600 5 4100 8 w0
    = refused (runtime_error "Input size mismatch; expected 4 got 5") w0 ∧
  SimpleRunner.addInputBuffer (build:=debug) 100 5 0 fresh
    = refused (runtime_error "Bad data size; expected 2 got 5") fresh ∧
  SimpleRunner.addOutputBuffer (build:=debug) 600 5 0 fresh
    = refused (runtime_error "Bad data size; expected 4 got 5") fresh.
Proof. by split_and!. Qed.


(** *** Parsing *)

Lemma parse_exposes_declared_tree_witness :
  ∃ iop, outcome (IOP.new (io:=Stub.io) container w0) = Ok iop ∧
         IOP.numPrograms iop = 1 ∧
         ∀ p, IOP.getPrograms iop !! 0%nat = Some p →
           Program.getName p = "mm" ∧ Program.numEntrypoints p = 1.
Proof.
  destruct (parse_exposes_declared_tree (io:=Stub.io) container 1 1 2 w0)
    as (iop & Hiop & Hprograms & Hnth).
  - vm_compute. repeat constructor.
  - reflexivity.
  - reflexivity.
  - by split.
  - exists iop. split_and!; [done..|]. intros p Hp.
    destruct (Hnth _ _ Hp) as (? & ? & _). done.
Defined.

Lemma parse_failure_aborts_construction_witness :
  ∃ status x, status ≠ 0%Z ∧
    outcome (IOP.new (io:=Stub.io) [] w0) = Throw (groq_error status x).
Proof.
  destruct (parse_failure_aborts_construction (io:=Stub.io) [] w0)
    as (before & c & status & x & _ & _ & Hstatus & Hthrows).
  - by apply List.Exists_cons_hd.
  - by exists status, x.
Defined.

Lemma layouts_report_descriptor_size_witness :
  Forall (λ l, TensorLayout.getIoSize l = 8) [tensorA; tensorB].
Proof.
  apply (layouts_report_descriptor_size (io:=Stub.io) 30 8 w0
           {| IODescriptor.layouts := [tensorA; tensorB]; IODescriptor.size := 8 |}).
  reflexivity.
Defined.

(** *** Binding *)

(** C5 as stated fails: tensor 0 of the input descriptor has [hostSize] 2,
    and [addInputBuffer(nullptr, 2, 0)], in a build that keeps the
    assertions, aborts on [assert(buffer)] where the claim has it
    succeed. *)
Lemma bind_null_buffer_aborts :
  input_layout fresh 0 = Some tensorA ∧
  TensorLayout.getHostSize tensorA = 2 ∧
  SimpleRunner.addInputBuffer (build:=debug) nullptr 2 0 fresh = aborted fresh.
Proof. by split_and!. Qed.

Lemma bind_contract_witness :
  SimpleRunner.addInputBuffer (build:=debug) 100 2 0 fresh
    = returned (with_input 100 2 0 fresh) ∧
  SimpleRunner.addInputBuffer (build:=debug) 100 99 0 fresh
    = refused (SimpleRunner.bad_data_size 2 99) fresh ∧
  SimpleRunner.addOutputBuffer (build:=debug) 600 4 2 fresh
    = refused out_of_range fresh.
Proof.
  split_and!.
  - destruct (bind_contract (build:=debug) fresh 100 2 0 stub_fresh_session)
      as (_ & Hin & _).
    destruct (Hin tensorA eq_refl) as (_ & Hbinds).
    by destruct Hbinds as [-> _]; [|left|].
  - destruct (bind_contract (build:=debug) fresh 100 99 0 stub_fresh_session)
      as (_ & Hin & _).
    destruct (Hin tensorA eq_refl) as (Hbad & _). by apply Hbad.
  - destruct (bind_contract (build:=debug) fresh 600 4 2 stub_fresh_session)
      as (_ & _ & Hout & _).
    by apply Hout.
Defined.

(** *** invoke *)



(** C10 as stated fails: the [invoke] of the fresh session stops in its
    first loop and makes no execute call, where the claim has every
    [invoke] make exactly one. *)
Lemma invoke_without_execute :
  outcome (before_execute (io:=Stub.io) (build:=debug) fresh w0) = Abort ∧
  executions (calls (SimpleRunner.invoke (io:=Stub.io) (build:=debug) fresh 9 w0))
    = 0%nat.
Proof. by split. Qed.

Lemma invoke_executes_once_witness :
  executions (calls (SimpleRunner.invoke (io:=Stub.io) (build:=debug) bound 9 w0))
    = 1%nat.
Proof.
  destruct (invoke_executes_once (io:=Stub.io) (build:=debug) bound 9 w0)
    as [_ Hexecutes].
  by destruct Hexecutes as (o & exec & outs & _ & _ & Hone & _).
Defined.

(** The wait that fails is the last call of [invoke]: no output is
    converted. *)
Example stub_wait_fails :
  SimpleRunner.invoke (io:=Stub.groqio 0 5) (build:=debug) bound 9 w0 =
    {| outcome := Throw (groq_error 5 "groq_wait_for_completion(completion, 30000)");
       final := <[4100 := [Byte.x01; Byte.x02]]>
                  (<[4004 := [Byte.x03; Byte.x04; Byte.x05]]>
                     (<[4000 := [Byte.x01; Byte.x02]]> w0));
       calls := [(c_get_data_handle 40 0, 0%Z);
                 (c_tensor_layout_from_host 300 100 2 4000 8, 0%Z);
                 (c_get_data_handle 40 0, 0%Z);
                 (c_tensor_layout_from_host 301 200 3 4000 8, 0%Z);
                 (c_invoke 9 40 0 41 0, 0%Z);
                 (c_wait_for_completion 50 30000, 5%Z)] |}.
Proof. reflexivity. Qed.

(** The whole exchange on the device that completes. *)
Example stub_invokes :
  outcome (SimpleRunner.invoke (io:=Stub.io) (build:=debug) bound 9 w0) = Ok tt ∧
  calls (SimpleRunner.invoke (io:=Stub.io) (build:=debug) bound 9 w0) =
    [(c_get_data_handle 40 0, 0%Z);
     (c_tensor_layout_from_host 300 100 2 4000 8, 0%Z);
     (c_get_data_handle 40 0, 0%Z);
     (c_tensor_layout_from_host 301 200 3 4000 8, 0%Z);
     (c_invoke 9 40 0 41 0, 0%Z);
     (c_wait_for_completion 50 30000, 0%Z);
     (c_get_data_handle 41 0, 0%Z);
     (c_tensor_layout_to_host 310 4100 8 600 4, 0%Z);
     (c_get_data_handle 41 0, 0%Z);
     (c_tensor_layout_to_host 311 4100 8 700 1, 0%Z)].
Proof. by split. Qed.
End stub.

(** ** SimpleRunner: the constructor *)

Section construction.
Context {io : GroqIO} {build : Build}.
Implicit Types (r : SimpleRunner.t) (w : World).

Lemma layoutsOf_entrypoint iop programIndex entrypointIndex p ep :
  IOP.getPrograms iop !! N.to_nat programIndex = Some p →
  Program.getEntrypoints p !! N.to_nat entrypointIndex = Some ep →
  SimpleRunner.inputLayoutsOf iop programIndex entrypointIndex
    = Ok (IODescriptor.getTensorLayouts (EntryPoint.getInputIODescriptor ep)) ∧
  SimpleRunner.outputLayoutsOf iop programIndex entrypointIndex
    = Ok (IODescriptor.getTensorLayouts (EntryPoint.getOutputIODescriptor ep)).
Proof.
  intros Hp Hep. unfold SimpleRunner.inputLayoutsOf, SimpleRunner.outputLayoutsOf.
  rewrite (at_Ok _ _ _ Hp). unfold_monad. by rewrite (at_Ok _ _ _ Hep).
Qed.

Lemma run_eta {S A} (run : Run S A) :
  run = {| outcome := outcome run; final := final run; calls := calls run |}.
Proof. by destruct run. Qed.

(** The constructor on a program or an entrypoint that the container does
    not have: [std::out_of_range] from the initialiser of [numInputs],
    before anything is asked of the driver. *)
Theorem constructor_index_out_of_range driver iop programIndex entrypointIndex w :
  IOP.numPrograms iop ≤ programIndex ∨
  (∃ p, IOP.getPrograms iop !! N.to_nat programIndex = Some p ∧
        Program.numEntrypoints p ≤ entrypointIndex) →
  SimpleRunner.new driver iop programIndex entrypointIndex w = refused out_of_range w.
Proof.
  intros Hrange.
  assert (SimpleRunner.inputLayoutsOf iop programIndex entrypointIndex
          = Throw out_of_range) as Hins.
  { unfold SimpleRunner.inputLayoutsOf.
    destruct Hrange as [Hp|(p & Hp & Hep)].
    - by rewrite at_out_of_range.
    - rewrite (at_Ok _ _ _ Hp). unfold_monad. by rewrite at_out_of_range. }
  rewrite (run_eta (SimpleRunner.new _ _ _ _ _)).
  cut (wp (SimpleRunner.new driver iop programIndex entrypointIndex)
          (λ o w' evs, o = Throw out_of_range ∧ w' = w ∧ evs = []) w).
  { unfold wp. by intros (-> & -> & ->). }
  unfold SimpleRunner.new. apply wp_bind, wp_lift. by rewrite Hins.
Qed.

(** The constructor when an allocation is refused: it throws the exception
    of [GROQOK] for the status.  When the input array is refused the output
    array is never asked for; when the output array is refused the input
    array has been allocated. *)
Theorem constructor_allocation_failure driver iop programIndex entrypointIndex p ep w :
  IOP.getPrograms iop !! N.to_nat programIndex = Some p →
  Program.getEntrypoints p !! N.to_nat entrypointIndex = Some ep →
  let run := SimpleRunner.new driver iop programIndex entrypointIndex w in
  let first := groq_allocate_inputs_iobuffer_array driver (IOP.handle iop) 1 w in
  let second := groq_allocate_outputs_iobuffer_array driver (IOP.handle iop) 1 first.2 in
  (first.1.1 ≠ GROQ_SUCCESS →
     outcome run = Throw (groq_error first.1.1
       "groq_allocate_inputs_iobuffer_array(driver.handle(), iop.handle(), 1, &inputIoba)") ∧
     final run = first.2 ∧
     calls run = [(allocate_inputs driver iop, first.1.1)]) ∧
  (first.1.1 = GROQ_SUCCESS → second.1.1 ≠ GROQ_SUCCESS →
     outcome run = Throw (groq_error second.1.1
       "groq_allocate_outputs_iobuffer_array(driver.handle(), iop.handle(), 1, &outputIoba)") ∧
     final run = second.2 ∧
     calls run = [(allocate_inputs driver iop, GROQ_SUCCESS);
                  (allocate_outputs driver iop, second.1.1)]).
Proof.
  intros Hp Hep run first second.
  destruct (layoutsOf_entrypoint _ _ _ _ _ Hp Hep) as [Hins Houts].
  change (wp (SimpleRunner.new driver iop programIndex entrypointIndex)
    (λ o w' evs,
      (first.1.1 ≠ GROQ_SUCCESS →
         o = Throw (groq_error first.1.1
           "groq_allocate_inputs_iobuffer_array(driver.handle(), iop.handle(), 1, &inputIoba)") ∧
         w' = first.2 ∧ evs = [(allocate_inputs driver iop, first.1.1)]) ∧
      (first.1.1 = GROQ_SUCCESS → second.1.1 ≠ GROQ_SUCCESS →
         o = Throw (groq_error second.1.1
           "groq_allocate_outputs_iobuffer_array(driver.handle(), iop.handle(), 1, &outputIoba)") ∧
         w' = second.2 ∧
         evs = [(allocate_inputs driver iop, GROQ_SUCCESS);
                (allocate_outputs driver iop, second.1.1)])) w).
  unfold SimpleRunner.new.
  apply wp_bind, wp_lift. rewrite Hins.
  apply wp_bind, wp_lift. rewrite Houts.
  apply wp_bind, wp_GROQOK. intros st1 h1 w1 Hfirst.
  subst second. subst first. rewrite Hfirst. cbn [fst snd].
  destruct (decide (st1 = GROQ_SUCCESS)) as [->|Hst1]; [|by split].
  apply wp_bind, wp_GROQOK. intros st2 h2 w2 Hsecond. rewrite Hsecond. cbn [fst snd].
  destruct (decide (st2 = GROQ_SUCCESS)) as [->|Hst2]; [|by split].
  apply wp_bind, wp_assert; [intros _|by intros _ _; split].
  apply wp_bind, wp_assert; [intros _|by intros _ _; split].
  apply wp_ret. by split.
Qed.

(** The session the constructor returns: it has one slot per tensor of the
    two descriptors of the entrypoint, every slot holds the null pointer and
    the size 0, the device sizes are those groqio.h gives for the program,
    and the two arrays were allocated, the input array first. *)
Theorem constructor_establishes_session driver iop programIndex entrypointIndex w r :
  outcome (SimpleRunner.new driver iop programIndex entrypointIndex w) = Ok r →
  session r ∧
  SimpleRunner.iop r = iop ∧
  SimpleRunner.programIndex r = programIndex ∧
  SimpleRunner.entrypointIndex r = entrypointIndex ∧
  SimpleRunner.tspInputSize r = groq_program_get_input_size (IOP.handle iop) programIndex ∧
  SimpleRunner.tspOutputSize r = groq_program_get_output_size (IOP.handle iop) programIndex ∧
  (∀ i, i < SimpleRunner.numInputs r → unbound_input r i) ∧
  (∀ i, i < SimpleRunner.numOutputs r → unbound_output r i) ∧
  (NDEBUG = false →
     SimpleRunner.inputIoba r ≠ nullptr ∧ SimpleRunner.outputIoba r ≠ nullptr) ∧
  calls (SimpleRunner.new driver iop programIndex entrypointIndex w)
    = [(allocate_inputs driver iop, GROQ_SUCCESS);
       (allocate_outputs driver iop, GROQ_SUCCESS)].
Proof.
  intros Hr. destruct (new_session _ _ _ _ _ _ Hr) as (Hsession & Hin & Hout).
  cut (wp (SimpleRunner.new driver iop programIndex entrypointIndex)
    (λ o _ evs, ∀ r', o = Ok r' →
       SimpleRunner.iop r' = iop ∧
       SimpleRunner.programIndex r' = programIndex ∧
       SimpleRunner.entrypointIndex r' = entrypointIndex ∧
       SimpleRunner.tspInputSize r'
         = groq_program_get_input_size (IOP.handle iop) programIndex ∧
       SimpleRunner.tspOutputSize r'
         = groq_program_get_output_size (IOP.handle iop) programIndex ∧
       SimpleRunner.outputSizes r'
         = replicate (N.to_nat (SimpleRunner.numOutputs r')) 0 ∧
       (NDEBUG = false →
          SimpleRunner.inputIoba r' ≠ nullptr ∧ SimpleRunner.outputIoba r' ≠ nullptr) ∧
       evs = [(allocate_inputs driver iop, GROQ_SUCCESS);
              (allocate_outputs driver iop, GROQ_SUCCESS)]) w).
  { unfold wp. intros Hnew.
    destruct (Hnew r Hr) as (? & ? & ? & ? & ? & Hsizes & ? & ?).
    split_and!; try done.
    intros i Hi. split; [rewrite Hout|rewrite Hsizes]; apply lookup_replicate_2; lia. }
  unfold SimpleRunner.new.
  apply wp_bind, wp_lift.
  destruct (SimpleRunner.inputLayoutsOf iop programIndex entrypointIndex)
    as [ins| |]; [|done..].
  apply wp_bind, wp_lift.
  destruct (SimpleRunner.outputLayoutsOf iop programIndex entrypointIndex)
    as [outs| |]; [|done..].
  apply wp_bind, wp_GROQOK. intros st1 h1 w1 _.
  destruct (decide (st1 = GROQ_SUCCESS)) as [->|Hst1]; [|done].
  apply wp_bind, wp_GROQOK. intros st2 h2 w2 _.
  destruct (decide (st2 = GROQ_SUCCESS)) as [->|Hst2]; [|done].
  apply wp_bind, wp_assert; [intros Hh1|done].
  apply wp_bind, wp_assert; [intros Hh2|done].
  apply wp_ret. intros r' [= <-]. cbn.
  split_and!; try done. intros Hdebug.
  destruct Hh1 as [?|Hh1], Hh2 as [?|Hh2]; try congruence.
  apply negb_true_iff, N.eqb_neq in Hh1, Hh2. done.
Qed.
End construction.

(** ** SimpleRunner: what the bind calls keep *)

Section binding_frame.
Context {build : Build}.
Implicit Types (r : SimpleRunner.t).

(** The ways [addInputBuffer] can end on a session. *)
Lemma addInputBuffer_cases r buffer size index :
  session r →
  SimpleRunner.addInputBuffer buffer size index r = refused out_of_range r ∨
  (∃ layout, input_layout r index = Some layout ∧
     SimpleRunner.addInputBuffer buffer size index r =
       refused (SimpleRunner.bad_data_size (TensorLayout.getHostSize layout) size) r) ∨
  SimpleRunner.addInputBuffer buffer size index r = aborted r ∨
  (∃ layout, input_layout r index = Some layout ∧
     size = TensorLayout.getHostSize layout ∧
     (buffer ≠ nullptr ∨ NDEBUG = true) ∧
     SimpleRunner.addInputBuffer buffer size index r =
       returned (with_input buffer size index r)).
Proof.
  intros Hr. destruct (input_layout r index) as [layout|] eqn:Hlayout.
  - destruct (decide (size = TensorLayout.getHostSize layout)) as [Hsize|Hsize];
      [|right; left; exists layout; split; [done|]; by apply addInputBuffer_bad_size].
    destruct (decide (buffer = nullptr)) as [->|Hbuffer];
      [|do 3 right; exists layout; split_and!; [done..|by left|];
        apply (addInputBuffer_binds _ _ _ _ layout); auto].
    destruct NDEBUG eqn:Hbuild.
    + do 3 right. exists layout. split_and!; [done..|by right|].
      apply (addInputBuffer_binds _ _ _ _ layout); auto.
    + right; right; left. by apply (addInputBuffer_null _ _ _ layout).
  - left. apply addInputBuffer_out_of_range; [done|].
    destruct Hr as (ins & outs & Hins & _ & -> & _).
    unfold input_layout in Hlayout. rewrite Hins in Hlayout.
    apply lookup_ge_None in Hlayout. unfold vsize. lia.
Qed.

Lemma addOutputBuffer_cases r buffer size index :
  session r →
  SimpleRunner.addOutputBuffer buffer size index r = refused out_of_range r ∨
  (∃ layout, output_layout r index = Some layout ∧
     SimpleRunner.addOutputBuffer buffer size index r =
       refused (SimpleRunner.bad_data_size (TensorLayout.getHostSize layout) size) r) ∨
  SimpleRunner.addOutputBuffer buffer size index r = aborted r ∨
  (∃ layout, output_layout r index = Some layout ∧
     size = TensorLayout.getHostSize layout ∧
     (buffer ≠ nullptr ∨ NDEBUG = true) ∧
     SimpleRunner.addOutputBuffer buffer size index r =
       returned (with_output buffer size index r)).
Proof.
  intros Hr. destruct (output_layout r index) as [layout|] eqn:Hlayout.
  - destruct (decide (size = TensorLayout.getHostSize layout)) as [Hsize|Hsize];
      [|right; left; exists layout; split; [done|]; by apply addOutputBuffer_bad_size].
    destruct (decide (buffer = nullptr)) as [->|Hbuffer];
      [|do 3 right; exists layout; split_and!; [done..|by left|];
        apply (addOutputBuffer_binds _ _ _ _ layout); auto].
    destruct NDEBUG eqn:Hbuild.
    + do 3 right. exists layout. split_and!; [done..|by right|].
      apply (addOutputBuffer_binds _ _ _ _ layout); auto.
    + right; right; left. by apply (addOutputBuffer_null _ _ _ layout).
  - left. apply addOutputBuffer_out_of_range; [done|].
    destruct Hr as (ins & outs & _ & Houts & _ & -> & _).
    unfold output_layout in Hlayout. rewrite Houts in Hlayout.
    apply lookup_ge_None in Hlayout. unfold vsize. lia.
Qed.

(** However [addInputBuffer(buffer, size, index)] ends on a session (it
    returns, throws or aborts), it calls nothing of groqio.h, it leaves a
    session with the same [const] members and buffer arrays, every input
    slot other than [index] and every output slot is as before, and slot
    [index] is either as before or holds [buffer] and [size]. *)
Theorem addInputBuffer_frame r buffer size index :
  session r →
  let run := SimpleRunner.addInputBuffer buffer size index r in
  calls run = [] ∧
  session (final run) ∧
  same_members r (final run) ∧
  SimpleRunner.outputBuffers (final run) = SimpleRunner.outputBuffers r ∧
  SimpleRunner.outputSizes (final run) = SimpleRunner.outputSizes r ∧
  (∀ j, j ≠ index →
     SimpleRunner.inputBuffers (final run) !! N.to_nat j
       = SimpleRunner.inputBuffers r !! N.to_nat j ∧
     SimpleRunner.inputSizes (final run) !! N.to_nat j
       = SimpleRunner.inputSizes r !! N.to_nat j) ∧
  (final run = r ∨
   outcome run = Ok tt ∧
   SimpleRunner.inputBuffers (final run) !! N.to_nat index = Some buffer ∧
   SimpleRunner.inputSizes (final run) !! N.to_nat index = Some size).
Proof.
  intros Hr.
  destruct (addInputBuffer_cases r buffer size index Hr)
    as [->|[(layout & _ & ->)|[->|(layout & Hl & _ & _ & ->)]]]; simpl;
    try (split_and!; [done..|by left]).
  destruct (session_input_layout _ _ _ Hr Hl) as (ins & _ & _ & Hb & Hs).
  split_and!; [done|by apply with_input_session|done..| |].
  - intros j Hj. rewrite !list_lookup_insert_ne by lia. done.
  - right. by rewrite !list_lookup_insert_eq.
Qed.

(** The same for [addOutputBuffer(buffer, size, index)], with the input
    slots untouched. *)
Theorem addOutputBuffer_frame r buffer size index :
  session r →
  let run := SimpleRunner.addOutputBuffer buffer size index r in
  calls run = [] ∧
  session (final run) ∧
  same_members r (final run) ∧
  SimpleRunner.inputBuffers (final run) = SimpleRunner.inputBuffers r ∧
  SimpleRunner.inputSizes (final run) = SimpleRunner.inputSizes r ∧
  (∀ j, j ≠ index →
     SimpleRunner.outputBuffers (final run) !! N.to_nat j
       = SimpleRunner.outputBuffers r !! N.to_nat j ∧
     SimpleRunner.outputSizes (final run) !! N.to_nat j
       = SimpleRunner.outputSizes r !! N.to_nat j) ∧
  (final run = r ∨
   outcome run = Ok tt ∧
   SimpleRunner.outputBuffers (final run) !! N.to_nat index = Some buffer ∧
   SimpleRunner.outputSizes (final run) !! N.to_nat index = Some size).
Proof.
  intros Hr.
  destruct (addOutputBuffer_cases r buffer size index Hr)
    as [->|[(layout & _ & ->)|[->|(layout & Hl & _ & _ & ->)]]]; simpl;
    try (split_and!; [done..|by left]).
  destruct (session_output_layout _ _ _ Hr Hl) as (outs & _ & _ & Hb & Hs).
  split_and!; [done|by apply with_output_session|done..| |].
  - intros j Hj. rewrite !list_lookup_insert_ne by lia. done.
  - right. by rewrite !list_lookup_insert_eq.
Qed.

Lemma final_returned {S} (s : S) : final (returned s) = s.
Proof. done. Qed.

Lemma with_input_layout r buffer size index i :
  input_layout (with_input buffer size index r) i = input_layout r i.
Proof. done. Qed.

(** Binding a tensor again replaces its buffer: after two bind calls on the
    same input that both return, the session is the one the second call
    alone would leave. *)
Theorem addInputBuffer_again r buffer size buffer' size' index :
  session r →
  let first := SimpleRunner.addInputBuffer buffer size index r in
  let second := SimpleRunner.addInputBuffer buffer' size' index (final first) in
  outcome first = Ok tt → outcome second = Ok tt →
  final second = final (SimpleRunner.addInputBuffer buffer' size' index r) ∧
  outcome (SimpleRunner.addInputBuffer buffer' size' index r) = Ok tt.
Proof.
  intros Hr first second. subst first second.
  destruct (addInputBuffer_cases r buffer size index Hr)
    as [->|[(layout & _ & ->)|[->|(layout & Hl & _ & _ & ->)]]]; try done.
  intros _. rewrite final_returned.
  pose proof (with_input_session r buffer size index Hr) as Hr'.
  destruct (addInputBuffer_cases _ buffer' size' index Hr')
    as [->|[(layout' & _ & ->)|[->|(layout' & Hl' & Hsize' & Hbuffer' & ->)]]];
    try done.
  intros _. rewrite with_input_layout in Hl'.
  rewrite (addInputBuffer_binds r buffer' size' index layout') by done.
  split; [|done]. rewrite !final_returned.
  unfold with_input; simpl. by rewrite !list_insert_insert_eq.
Qed.

(** Bind calls on two different inputs that both return can be made in
    either order: the session left is the same. *)
Theorem addInputBuffer_commute r buffer size index buffer' size' index' :
  session r → index ≠ index' →
  let first := SimpleRunner.addInputBuffer buffer size index r in
  let second := SimpleRunner.addInputBuffer buffer' size' index' (final first) in
  let first' := SimpleRunner.addInputBuffer buffer' size' index' r in
  let second' := SimpleRunner.addInputBuffer buffer size index (final first') in
  outcome first = Ok tt → outcome second = Ok tt →
  outcome first' = Ok tt ∧ outcome second' = Ok tt ∧ final second' = final second.
Proof.
  intros Hr Hne first second first' second'. subst first second first' second'.
  destruct (addInputBuffer_cases r buffer size index Hr)
    as [->|[(layout & _ & ->)|[->|(layout & Hl & Hsize & Hbuffer & ->)]]]; try done.
  intros _. rewrite final_returned.
  pose proof (with_input_session r buffer size index Hr) as Hr1.
  destruct (addInputBuffer_cases _ buffer' size' index' Hr1)
    as [->|[(layout' & _ & ->)|[->|(layout' & Hl' & Hsize' & Hbuffer' & ->)]]];
    try done.
  intros _. rewrite with_input_layout in Hl'.
  rewrite (addInputBuffer_binds r buffer' size' index' layout') by done.
  rewrite !final_returned.
  pose proof (with_input_session r buffer' size' index' Hr) as Hr2.
  rewrite (addInputBuffer_binds _ buffer size index layout) by done.
  rewrite final_returned.
  split_and!; [done..|].
  unfold with_input, SimpleRunner.set_inputSizes, SimpleRunner.set_inputBuffers.
  simpl. f_equal; apply list_insert_insert_ne; lia.
Qed.
End binding_frame.

(** ** SimpleRunner: invoke on a bound session *)

Section invoke_bound.
Context {io : GroqIO} {build : Build}.
Implicit Types (r : SimpleRunner.t) (w : World).

Ltac each_call :=
  simpl;
  repeat first
    [ apply List.Forall_nil
    | apply List.Forall_cons; [first [done | by eauto]|] ].

Lemma bind_run_Throw {S A B} (m : M S A) (k : A → M S B) s e :
  outcome (m s) = Throw e →
  (m ≫= k) s = {| outcome := Throw e; final := final (m s); calls := calls (m s) |}.
Proof. unfold_monad. simpl. by intros ->. Qed.

Lemma bind_run_Abort {S A B} (m : M S A) (k : A → M S B) s :
  outcome (m s) = Abort →
  (m ≫= k) s = {| outcome := Abort; final := final (m s); calls := calls (m s) |}.
Proof. unfold_monad. simpl. by intros ->. Qed.

Lemma only_calls_fail_after {A} (o : Outcome A) evs1 evs2 :
  Forall succeeded evs1 → only_calls_fail o evs2 → only_calls_fail o (evs1 ++ evs2).
Proof.
  intros Hevs1. destruct o as [a|e|]; simpl.
  - intros. by apply Forall_app.
  - intros (before & c & status & x & -> & ? & ? & ->).
    exists (evs1 ++ before), c, status, x. rewrite app_assoc.
    split_and!; [done| |done..]. by apply Forall_app.
  - intros [??]. split; [done|]. by apply Forall_app.
Qed.

Lemma only_calls_fail_call {A} (a : A) c status x :
  only_calls_fail
    (if decide (status = GROQ_SUCCESS) then Ok a else Throw (groq_error status x))
    [(c, status)].
Proof.
  destruct (decide _) as [->|Hstatus]; simpl; [each_call|].
  by exists [], c, status, x.
Qed.

Lemma output_phase_transcodes evs : Forall output_phase evs → transcodes evs = 0%nat.
Proof.
  unfold transcodes. induction 1 as [|[c st] evs Hc _ IH]; [done|]. simpl.
  unfold output_phase in Hc. by destruct c.
Qed.

Lemma input_phase_output_transcodes evs :
  Forall input_phase evs → output_transcodes evs = 0%nat.
Proof.
  unfold output_transcodes. induction 1 as [|[c st] evs Hc _ IH]; [done|]. simpl.
  unfold input_phase in Hc. by destruct c.
Qed.

Lemma output_transcodes_app evs evs' :
  output_transcodes (evs ++ evs') = (output_transcodes evs + output_transcodes evs')%nat.
Proof. unfold output_transcodes. by rewrite List.filter_app, length_app. Qed.

Lemma executed_counts r device o exec :
  executed r device o exec →
  only_calls_fail o exec ∧ transcodes exec = 0%nat ∧ output_transcodes exec = 0%nat.
Proof.
  destruct 1 as [status x Hstatus|completion status x Hstatus|completion];
    (split; [|done]); simpl.
  - by exists [], (the_execute r device), status, x.
  - exists [(the_execute r device, GROQ_SUCCESS)],
      (c_wait_for_completion completion 30000), status, x.
    split_and!; [done|each_call|done..].
  - each_call.
Qed.

(** The round of the first loop on a bound tensor whose device size is the
    one the session holds. *)
Lemma invoke_input_bound r i w :
  bound_input r i →
  (∀ layout, input_layout r i = Some layout →
     TensorLayout.getIoSize layout = SimpleRunner.tspInputSize r) →
  wp (SimpleRunner.invoke_input r i) (λ o _ evs, only_calls_fail o evs) w.
Proof.
  intros (layout & buffer & Hlayout & Hbuffer & Hnull & Hsize) Hio.
  specialize (Hio _ Hlayout). unfold input_layout in Hlayout.
  unfold SimpleRunner.invoke_input.
  destruct (SimpleRunner.inputTensorLayouts r) as [layouts| |]; [|done..].
  apply wp_bind, wp_lift. simpl.
  apply wp_bind, wp_lift. rewrite (at_Ok _ _ _ Hlayout).
  apply wp_bind, wp_lift. rewrite (at_Ok _ _ _ Hbuffer).
  apply wp_bind, wp_lift. rewrite (at_Ok _ _ _ Hsize).
  apply wp_bind, wp_GROQOK. intros status output w' _.
  destruct (decide (status = GROQ_SUCCESS)) as [->|Hfailed]; simpl;
    [|by exists [], (c_get_data_handle (SimpleRunner.inputIoba r) 0), status,
         "groq_get_data_handle(inputIoba, 0, &output)"].
  apply wp_bind, wp_assert; [intros _|intros ? _; split; [done|each_call]].
  apply wp_bind, wp_assert; [intros _|intros ? _; split; [done|each_call]].
  unfold wp. rewrite <-Hio, fromHost_delegates. unfold delegated. simpl.
  apply (only_calls_fail_after _ [_]); [each_call|].
  apply only_calls_fail_call.
Qed.

Lemma invoke_output_bound r i w :
  bound_output r i →
  wp (SimpleRunner.invoke_output r i)
     (λ o _ evs, only_calls_fail o evs ∧ (o = Ok tt → output_transcodes evs = 1%nat)) w.
Proof.
  intros (layout & buffer & Hlayout & Hbuffer & Hnull & Hsize).
  unfold output_layout in Hlayout. unfold SimpleRunner.invoke_output.
  destruct (SimpleRunner.outputTensorLayouts r) as [layouts| |]; [|done..].
  apply wp_bind, wp_lift. simpl.
  apply wp_bind, wp_lift. rewrite (at_Ok _ _ _ Hlayout).
  apply wp_bind, wp_lift. rewrite (at_Ok _ _ _ Hbuffer).
  apply wp_bind, wp_lift. rewrite (at_Ok _ _ _ Hsize).
  apply wp_bind, wp_GROQOK. intros status input w' _.
  destruct (decide (status = GROQ_SUCCESS)) as [->|Hfailed]; simpl;
    [|split; [|done];
      by exists [], (c_get_data_handle (SimpleRunner.outputIoba r) 0), status,
         "groq_get_data_handle(outputIoba, 0, &input)"].
  apply wp_bind, wp_assert; [intros _|intros ? _; split; [split; [done|each_call]|done]].
  apply wp_bind, wp_assert; [intros _|intros ? _; split; [split; [done|each_call]|done]].
  unfold wp. rewrite toHost_delegates. unfold delegated. simpl. split; [|done].
  apply (only_calls_fail_after _ [_]); [each_call|].
  apply only_calls_fail_call.
Qed.

Lemma before_execute_bound r w :
  (∀ i, i < SimpleRunner.numInputs r → bound_input r i) →
  (∀ i layout, input_layout r i = Some layout →
     TensorLayout.getIoSize layout = SimpleRunner.tspInputSize r) →
  only_calls_fail (outcome (before_execute r w)) (calls (before_execute r w)).
Proof.
  intros Hbound Hio.
  change (wp (before_execute r) (λ o _ evs, only_calls_fail o evs) w).
  unfold before_execute.
  apply wp_bind, wp_assert; [intros _|by intros ? _].
  apply wp_bind, wp_assert; [intros _|by intros ? _]. simpl.
  apply (wp_foreach _ _ (λ _ _ evs, Forall succeeded evs)); [done| |done].
  intros done i rest w1 evs1 [-> Hi]%indices_middle Hevs1.
  eapply wp_mono; [apply invoke_input_bound; eauto|].
  intros o w2 evs2 Hevs2. simpl in Hevs2.
  pose proof (only_calls_fail_after _ _ _ Hevs1 Hevs2) as Hall.
  by destruct o as [[]| |].
Qed.

Lemma after_execute_bound r w :
  (∀ i, i < SimpleRunner.numOutputs r → bound_output r i) →
  only_calls_fail (outcome (after_execute r w)) (calls (after_execute r w)) ∧
  (outcome (after_execute r w) = Ok tt →
     output_transcodes (calls (after_execute r w))
       = N.to_nat (SimpleRunner.numOutputs r)).
Proof.
  intros Hbound.
  change (wp (after_execute r)
            (λ o _ evs, only_calls_fail o evs ∧
               (o = Ok tt → output_transcodes evs
                              = N.to_nat (SimpleRunner.numOutputs r))) w).
  unfold after_execute.
  apply (wp_foreach _ _
           (λ done _ evs, Forall succeeded evs ∧ output_transcodes evs = length done)).
  - done.
  - intros done i rest w1 evs1 [-> Hi]%indices_middle [Hevs1 Hcount].
    eapply wp_mono; [apply invoke_output_bound; eauto|].
    intros o w2 evs2 [Hevs2 Hone]. simpl in Hevs2.
    pose proof (only_calls_fail_after _ _ _ Hevs1 Hevs2) as Hall.
    destruct o as [[]| |]; [|done..]. split; [done|].
    rewrite output_transcodes_app, length_app, Hcount, Hone; done.
  - intros w' evs [Hevs Hcount]. split; [done|]. intros _.
    by rewrite Hcount, indices_length.
Qed.

(** On a session whose tensors are all bound, and whose device input size
    is the one of its input tensors, [invoke] throws no [std::out_of_range]
    and no size mismatch: it fails only on a call of groqio.h that fails,
    which is then the last call made, or on an assertion about a handle.
    When it returns it has converted every input once, executed once and
    converted every output once. *)
Theorem invoke_fully_bound r device w :
  fully_bound r →
  (∀ i layout, input_layout r i = Some layout →
     TensorLayout.getIoSize layout = SimpleRunner.tspInputSize r) →
  only_calls_fail (outcome (SimpleRunner.invoke r device w))
                  (calls (SimpleRunner.invoke r device w)) ∧
  (outcome (SimpleRunner.invoke r device w) = Ok tt →
     transcodes (calls (SimpleRunner.invoke r device w))
       = N.to_nat (SimpleRunner.numInputs r) ∧
     executions (calls (SimpleRunner.invoke r device w)) = 1%nat ∧
     output_transcodes (calls (SimpleRunner.invoke r device w))
       = N.to_nat (SimpleRunner.numOutputs r)).
Proof.
  intros (_ & Hins & Houts) Hio.
  pose proof (before_execute_bound r w Hins Hio) as Hbefore.
  pose proof (before_execute_phase r w) as Hphase.
  destruct (before_execute_calls r w) as [_ Hdone].
  rewrite invoke_phases.
  destruct (outcome (before_execute r w)) as [[]| |] eqn:Ho1;
    [|by rewrite (bind_run_Throw _ _ _ _ Ho1)|by rewrite (bind_run_Abort _ _ _ Ho1)].
  rewrite (bind_run_Ok _ _ _ _ Ho1). simpl.
  destruct (Hdone eq_refl) as [_ Hcount1].
  set (w1 := final (before_execute r w)).
  pose proof (invoke_execute_executed r device w1) as Hexec.
  destruct (executed_counts _ _ _ _ Hexec) as (Hexec1 & Hexec2 & Hexec3).
  destruct (executed_executions _ _ _ _ Hexec) as [Hexec4 Hexec5].
  destruct (outcome (SimpleRunner.invoke_execute r device w1)) as [[]| |] eqn:Ho2.
  - rewrite (bind_run_Ok _ _ _ _ Ho2). simpl.
    set (w2 := final (SimpleRunner.invoke_execute r device w1)).
    destruct (after_execute_bound r w2 Houts) as [Hafter Hcount3].
    pose proof (after_execute_calls r w2) as Hphase3.
    split.
    + apply only_calls_fail_after; [done|]. by apply only_calls_fail_after.
    + intros Ho3.
      rewrite !transcodes_app, !executions_app, !output_transcodes_app.
      rewrite Hcount1, Hexec2, Hexec3, Hexec4, (Hcount3 Ho3).
      rewrite (output_phase_transcodes _ Hphase3).
      rewrite (output_phase_executions _ Hphase3).
      rewrite (input_phase_executions _ Hphase).
      rewrite (input_phase_output_transcodes _ Hphase). lia.
  - rewrite (bind_run_Throw _ _ _ _ Ho2). simpl. split; [|done].
    by apply (only_calls_fail_after (A:=unit) (Throw e)).
  - inversion Hexec.
Qed.

(** [invoke] stops in the round of a tensor whose round never returns and
    converts nothing. *)
Lemma invoke_stops_at r device w i :
  i < SimpleRunner.numInputs r →
  (∀ w1, wp (SimpleRunner.invoke_input r i)
           (λ o _ evs, o ≠ Ok tt ∧ Forall (λ ev, data_handle_call ev.1 = true) evs) w1) →
  outcome (SimpleRunner.invoke r device w) ≠ Ok tt ∧
  Forall (input_call r (indices i)) (calls (SimpleRunner.invoke r device w)).
Proof.
  intros Hi Hround.
  cut (wp (before_execute r)
         (λ o _ evs, o ≠ Ok tt ∧ Forall (input_call r (indices i)) evs) w).
  { unfold wp. intros [Hbefore Hcalls].
    destruct (invoke_run r device w) as [(_ & -> & Hrun)|[? _]]; done. }
  unfold before_execute.
  apply wp_bind, wp_assert; [intros _|done].
  apply wp_bind, wp_assert; [intros _|done]. simpl.
  apply (wp_foreach _ _
           (λ done _ evs, (i ∉ done) ∧ Forall (input_call r (indices i)) evs)).
  - split; [|done]. apply not_elem_of_nil.
  - intros done j rest w1 evs1 [-> Hj]%indices_middle [Hnotin Hevs1].
    rewrite indices_elem_of in Hnotin.
    destruct (decide (j = i)) as [->|Hne].
    + eapply wp_mono; [apply Hround|].
      intros o w2 evs2 [Ho Hevs2].
      assert (Forall (input_call r (indices i)) (evs1 ++ evs2)) as Hall.
      { apply Forall_app. split; [done|].
        eapply Forall_impl; [exact Hevs2|]. intros ev ?. by left. }
      by destruct o as [[]| |].
    + eapply wp_mono; [apply invoke_input_round|].
      intros o w2 evs2 [Hrnd _].
      assert (Forall (input_call r (indices i)) (evs1 ++ evs2)) as Hall.
      { apply Forall_app. split; [done|].
        eapply Forall_impl; [exact Hrnd|]. intros ev.
        apply input_call_mono. intros k ->%list_elem_of_singleton.
        apply indices_elem_of. lia. }
      destruct o as [[]| |]; [|done..]. split; [|done].
      rewrite indices_snoc, indices_elem_of. lia.
  - intros w' evs [Hnotin _]. by rewrite indices_elem_of in Hnotin.
Qed.

(** [invoke] hands [fromHost] the device input size of the program
    ([groq_program_get_input_size]), and [fromHost] compares it with the
    device size the layout holds (the one of the entrypoint).  On a session
    where the two differ for input tensor [i], [invoke] never returns: it
    stops in the first loop, by the round of tensor [i], without converting
    tensor [i], executing, or converting an output. *)
Theorem invoke_device_size_disagreement r device w i layout :
  session r →
  input_layout r i = Some layout →
  TensorLayout.getIoSize layout ≠ SimpleRunner.tspInputSize r →
  outcome (SimpleRunner.invoke r device w) ≠ Ok tt ∧
  Forall (input_call r (indices i)) (calls (SimpleRunner.invoke r device w)).
Proof.
  intros Hr Hlayout Hio. apply invoke_stops_at.
  { destruct (session_input_layout _ _ _ Hr Hlayout) as (ins & Hins & Hl & _).
    destruct Hr as (ins' & _ & Hins' & _ & -> & _).
    rewrite Hins in Hins'. injection Hins' as <-.
    apply lookup_lt_Some in Hl. unfold vsize. lia. }
  intros w1. unfold input_layout in Hlayout. unfold SimpleRunner.invoke_input.
  destruct (SimpleRunner.inputTensorLayouts r) as [layouts| |]; [|done..].
  apply wp_bind, wp_lift. simpl.
  apply wp_bind, wp_lift. rewrite (at_Ok _ _ _ Hlayout).
  apply wp_bind, wp_lift.
  destruct (at_ (SimpleRunner.inputBuffers r) i) as [input| |]; [|done..].
  apply wp_bind, wp_lift.
  destruct (at_ (SimpleRunner.inputSizes r) i) as [inputSize| |]; [|done..].
  apply wp_bind, wp_GROQOK. intros status output w' _.
  destruct (decide (status = GROQ_SUCCESS)) as [->|Hfailed]; simpl;
    [|split; [done|each_call]].
  apply wp_bind, wp_assert; [intros _|split; [done|each_call]].
  apply wp_bind, wp_assert; [intros _|split; [done|each_call]].
  unfold wp.
  destruct (decide (inputSize = TensorLayout.getHostSize layout)) as [->|Hin].
  - rewrite fromHost_output_mismatch by done. split; [done|each_call].
  - rewrite fromHost_input_mismatch by done. split; [done|each_call].
Qed.
End invoke_bound.

(** ** Parsing: what the parsed objects hold *)

Section parsed_objects.
Context {io : GroqIO}.
Implicit Types (w : World).

(** A tensor layout that its constructor returned holds the handle, the
    name and the device size it was given, and the host size, the format and
    the dimensions that groqio.h reports for the handle: as many dimensions
    as reported, in the order of their numbers.  Every call made to build it
    succeeded. *)
Theorem tensor_layout_fields layout name iodSize w l :
  outcome (TensorLayout.new layout name iodSize w) = Ok l →
  TensorLayout.layout l = layout ∧
  TensorLayout.getName l = name ∧
  TensorLayout.getIoSize l = iodSize ∧
  TensorLayout.getHostSize l = (groq_tensor_layout_get_size layout).2 ∧
  TensorLayout.format l = (groq_tensor_layout_get_format layout).2 ∧
  vsize (TensorLayout.getDimensions l)
    = (groq_tensor_layout_get_number_of_dimensions layout).2 ∧
  (∀ (k : nat) d, TensorLayout.getDimensions l !! k = Some d →
     d = (groq_tensor_layout_get_nth_dimension layout (N.of_nat k)).2) ∧
  Forall succeeded (calls (TensorLayout.new layout name iodSize w)).
Proof.
  intros Hl. pose proof (TensorLayout_new_parsed layout name iodSize w) as Hparsed.
  unfold wp in Hparsed. rewrite Hl in Hparsed. destruct Hparsed as [Hcalls ->].
  split_and!; try done.
  - apply vsize_indices_fmap.
  - intros k d. unfold TensorLayout.getDimensions. simpl.
    rewrite list_lookup_fmap, fmap_Some.
    by intros (nth & [-> _]%indices_lookup & ->).
Qed.

(** In a tree that the constructor of [IOP] returned, the [IOP] holds the
    bytes it was given and the handle of the root, and in every entrypoint
    of every program each tensor layout of the input descriptor reports the
    device size of that descriptor, and each one of the output descriptor
    the device size of that one. *)
Theorem parsed_tree_device_sizes data w iop :
  outcome (IOP.new data w) = Ok iop →
  IOP.data iop = data ∧
  IOP.handle iop = (groq_iop_init data).2 ∧
  ∀ p ep, p ∈ IOP.getPrograms iop → ep ∈ Program.getEntrypoints p →
    Forall (λ l, TensorLayout.getIoSize l
                 = IODescriptor.getSize (EntryPoint.getInputIODescriptor ep))
           (IODescriptor.getTensorLayouts (EntryPoint.getInputIODescriptor ep)) ∧
    Forall (λ l, TensorLayout.getIoSize l
                 = IODescriptor.getSize (EntryPoint.getOutputIODescriptor ep))
           (IODescriptor.getTensorLayouts (EntryPoint.getOutputIODescriptor ep)).
Proof.
  intros Hiop. pose proof (IOP_new_parsed data w) as Hparsed.
  unfold wp in Hparsed. rewrite Hiop in Hparsed. destruct Hparsed as [_ ->].
  split_and!; [done..|]. intros p ep.
  unfold IOP.getPrograms, Program.getEntrypoints. simpl.
  intros (i & -> & _)%list_elem_of_fmap. simpl.
  intros (j & -> & _)%list_elem_of_fmap. simpl.
  split; by apply Forall_fmap, Forall_true.
Qed.
End parsed_objects.
